(** * A shallow embedding of [untar.py]: the tar archive parser

    The archive file is a list of bytes; an open file handle is a read
    position in it.  Python exceptions are the [Raise] results of an error
    monad, Python [str] values are kept as their UTF-8 encoding, the
    [_file_to_position] dictionary is a finite map from names to offsets, and
    the generator [get_names] is the list of names it yields, each with the
    dictionary as it stands at that yield. *)

From Stdlib Require Import ZArith List Strings.Byte String Ascii Lia DecimalString.
From stdpp Require Import base strings gmap list sorting.

Local Open Scope string_scope.
Local Open Scope list_scope.
Local Open Scope Z_scope.

(** ** Exceptions and the error monad *)

(** The key a [KeyError] carries: the type table is keyed by [bytes], the
    position dictionary by [str]. *)
Inductive pykey :=
  | KBytes (b : list byte)
  | KStr (s : string)
  | KObject.

Inductive exn :=
  | StructError
  | UnicodeDecodeError
  | ValueError
  | KeyError (k : pykey)
  | TypeError
  | OSError
  | FileExistsError
  | IsADirectoryError.

Inductive result (A : Type) :=
  | Ok (a : A)
  | Raise (e : exn).
Arguments Ok {A} a.
Arguments Raise {A} e.

Definition bind {A B} (c : result A) (k : A -> result B) : result B :=
  match c with
  | Ok a => k a
  | Raise e => Raise e
  end.

Notation "'let*' x ':=' c 'in' k" := (bind c (fun x => k))
  (at level 10, x name, c at level 100, k at level 200).

Definition of_option {A} (e : exn) (o : option A) : result A :=
  match o with
  | Some a => Ok a
  | None => Raise e
  end.

Fixpoint mapM {A B} (f : A -> result B) (l : list A) : result (list B) :=
  match l with
  | [] => Ok []
  | a :: l' => let* b := f a in let* bs := mapM f l' in Ok (b :: bs)
  end.

(** The error kinds of the design (section 7) and the exceptions of the code
    that stand for them.  Nothing in the code raises a truncation error, and
    a [TypeError] belongs to no kind. *)
Inductive error_kind :=
  | MalformedHeader
  | UnknownEntry
  | TruncatedArchive
  | IOFailure.

Definition kind_of (e : exn) : option error_kind :=
  match e with
  | StructError | UnicodeDecodeError | ValueError | KeyError (KBytes _) =>
      Some MalformedHeader
  | KeyError (KStr _) => Some UnknownEntry
  | OSError | FileExistsError | IsADirectoryError => Some IOFailure
  | KeyError KObject | TypeError => None
  end.

(** ** Bytes *)

Fixpoint bytes_eqb (a b : list byte) : bool :=
  match a, b with
  | [], [] => true
  | x :: a', y :: b' => Byte.eqb x y && bytes_eqb a' b'
  | _, _ => false
  end.

#[global] Instance byte_eq_decision : EqDecision byte := Byte.byte_eq_dec.

(** [b[lo:hi]] *)
Definition slice {A} (lo hi : nat) (l : list A) : list A :=
  take (hi - lo) (drop lo l).

Fixpoint lstrip_nul (bs : list byte) : list byte :=
  match bs with
  | b :: t => if Byte.eqb b x00 then lstrip_nul t else bs
  | [] => []
  end.

(** [b.strip(b'\x00')] *)
Definition strip_nul (bs : list byte) : list byte :=
  rev (lstrip_nul (rev (lstrip_nul bs))).

Fixpoint startswith (bs prefix : list byte) : bool :=
  match prefix, bs with
  | [], _ => true
  | p :: prefix', b :: bs' => Byte.eqb b p && startswith bs' prefix'
  | _ :: _, [] => false
  end.

(** [f.seek(pos); f.read(n)] for a count [n] that is a natural number: a
    read past the end of the file gives what is left. *)
Definition pread (archive : list byte) (pos n : nat) : list byte :=
  take n (drop pos archive).

(** ** Text: [bytes.decode()] *)

Definition continuation (b : N) : bool := ((128 <=? b) && (b <=? 191))%N.

(** Strict UTF-8: no overlong forms, no surrogates, nothing above U+10FFFF. *)
Fixpoint utf8_valid (bs : list N) : bool :=
  match bs with
  | [] => true
  | b0 :: t0 =>
      if (b0 <? 128)%N then utf8_valid t0
      else if ((194 <=? b0) && (b0 <=? 223))%N then
        match t0 with
        | b1 :: t1 => continuation b1 && utf8_valid t1
        | _ => false
        end
      else if ((224 <=? b0) && (b0 <=? 239))%N then
        match t0 with
        | b1 :: b2 :: t2 =>
            (if (b0 =? 224)%N then ((160 <=? b1) && (b1 <=? 191))%N
             else if (b0 =? 237)%N then ((128 <=? b1) && (b1 <=? 159))%N
             else continuation b1)
            && continuation b2 && utf8_valid t2
        | _ => false
        end
      else if ((240 <=? b0) && (b0 <=? 244))%N then
        match t0 with
        | b1 :: b2 :: b3 :: t3 =>
            (if (b0 =? 240)%N then ((144 <=? b1) && (b1 <=? 191))%N
             else if (b0 =? 244)%N then ((128 <=? b1) && (b1 <=? 143))%N
             else continuation b1)
            && continuation b2 && continuation b3 && utf8_valid t3
        | _ => false
        end
      else false
  end.

(** A [str] is represented by its UTF-8 encoding, so decoding checks the
    bytes and keeps them. *)
Definition decode (bs : list byte) : result string :=
  if utf8_valid (map Byte.to_N bs) then Ok (string_of_list_byte bs)
  else Raise UnicodeDecodeError.

(** Truth value of a [str]: the empty text is false. *)
Definition str_truthy (s : string) : bool :=
  match s with
  | EmptyString => false
  | String _ _ => true
  end.

(** ** [int(x, 8)] *)

Definition is_space (b : byte) : bool :=
  let n := Byte.to_N b in (((9 <=? n) && (n <=? 13)) || (n =? 32))%N.

Definition octal_digit (b : byte) : option Z :=
  let n := Byte.to_N b in
  if ((48 <=? n) && (n <=? 55))%N then Some (Z.of_N (n - 48)) else None.

Fixpoint skip_spaces (bs : list byte) : list byte :=
  match bs with
  | b :: t => if is_space b then skip_spaces t else bs
  | [] => []
  end.

(** The run of digits and single underscores: the value read, the number of
    digits, and what follows the run. *)
Fixpoint scan_octal (bs : list byte) (acc : Z) (digits : nat) (prev_underscore : bool)
  : option (Z * nat * list byte) :=
  match bs with
  | [] => if prev_underscore then None else Some (acc, digits, [])
  | b :: t =>
      if Byte.eqb b "_"%byte then
        if prev_underscore then None else scan_octal t acc digits true
      else
        match octal_digit b with
        | Some d => scan_octal t (8 * acc + d) (S digits) false
        | None => if prev_underscore then None else Some (acc, digits, bs)
        end
  end.

Definition skip_sign (bs : list byte) : bool * list byte :=
  match bs with
  | b :: t =>
      if Byte.eqb b "+"%byte then (false, t)
      else if Byte.eqb b "-"%byte then (true, t)
      else (false, bs)
  | [] => (false, [])
  end.

Definition skip_prefix (bs : list byte) : list byte :=
  match bs with
  | b0 :: b1 :: t =>
      if Byte.eqb b0 "0"%byte && (Byte.eqb b1 "o"%byte || Byte.eqb b1 "O"%byte) then
        match t with
        | u :: t' => if Byte.eqb u "_"%byte then t' else t
        | [] => t
        end
      else bs
  | _ => bs
  end.

(** [int(b, 8)] on ASCII input: blanks, a sign, an optional [0o], octal
    digits with single underscores between them, blanks. *)
Definition int_octal (bs : list byte) : result Z :=
  let '(negative, s) := skip_sign (skip_spaces bs) in
  let s := skip_prefix s in
  if startswith s ["_"%byte] then Raise ValueError
  else
    match scan_octal s 0 0 false with
    | Some (v, S _, rest) =>
        match skip_spaces rest with
        | [] => Ok (if negative then - v else v)
        | _ :: _ => Raise ValueError
        end
    | _ => Raise ValueError
    end.

(** ** [struct.unpack] *)

(** The items of a format string: [Fs n] is [ns], [Fc] is [c], [Fx n] is
    [nx] (pad bytes, no value). *)
Inductive fmt_item :=
  | Fs (n : nat)
  | Fc
  | Fx (n : nat).

Definition item_size (i : fmt_item) : nat :=
  match i with
  | Fs n => n
  | Fc => 1
  | Fx n => n
  end.

Definition calcsize (fmt : list fmt_item) : nat :=
  foldr (fun i acc => (item_size i + acc)%nat) 0%nat fmt.

Fixpoint unpack_fields (fmt : list fmt_item) (bs : list byte) : list (list byte) :=
  match fmt with
  | [] => []
  | Fx n :: fmt' => unpack_fields fmt' (drop n bs)
  | i :: fmt' => take (item_size i) bs :: unpack_fields fmt' (drop (item_size i) bs)
  end.

Definition unpack (fmt : list fmt_item) (bs : list byte) : result (list (list byte)) :=
  if (length bs =? calcsize fmt)%nat then Ok (unpack_fields fmt bs)
  else Raise StructError.

(** ** Header records *)

(** A Python value as the header list and the display fields hold them. *)
Inductive pyval :=
  | VNone
  | VStr (s : string)
  | VInt (z : Z)
  | VDatetime (timestamp : Z)
  | VDict (d : gmap string Z).

Module FileHeader.

Record t := mk {
  file_name : pyval;
  access_mod : pyval;
  user_id : pyval;
  group_id : pyval;
  size : pyval;
  last_mod_time : pyval;
  check_sum : pyval;
  file_type : pyval;
  link_name : pyval;
  magic : pyval;
  version : pyval;
  user_name : pyval;
  group_name : pyval;
  dev_major : pyval;
  dev_minor : pyval;
  prefix : pyval;
  other : pyval
}.

(** The constructor applied to a list of arguments: nine required fields, eight that default to
    [None], and a [TypeError] for any other number of arguments. *)
Definition new (args : list pyval) : result t :=
  match args with
  | a0 :: a1 :: a2 :: a3 :: a4 :: a5 :: a6 :: a7 :: a8 :: opt =>
      if (8 <? length opt)%nat then Raise TypeError
      else
        let o i := default VNone (opt !! i) in
        Ok (mk a0 a1 a2 a3 a4 a5 a6 a7 a8
              (o 0%nat) (o 1%nat) (o 2%nat) (o 3%nat)
              (o 4%nat) (o 5%nat) (o 6%nat) (o 7%nat))
  | _ => Raise TypeError
  end.

End FileHeader.

(** ** The parser *)

Definition _HEADER_FMT1 : list fmt_item :=
  [Fs 100; Fs 8; Fs 8; Fs 8; Fs 12; Fs 12; Fs 8; Fc; Fs 100; Fs 255].
Definition _HEADER_FMT2 : list fmt_item :=
  [Fs 6; Fs 2; Fs 32; Fs 32; Fs 8; Fs 8; Fs 155; Fs 12].
Definition _HEADER_FMT3 : list fmt_item :=
  [Fs 6; Fs 2; Fs 32; Fs 32; Fs 8; Fs 8; Fs 12; Fs 12; Fs 112; Fx 31].
Definition _BLOCK_SIZE : nat := 512.
Definition _NULL_BLOCK : list byte := replicate 512 x00.

Definition _FILE_TYPES : list (list byte * string) :=
  [ (["0"%byte], "Regular file");
    (["1"%byte], "Hard link");
    (["2"%byte], "Symbolic link");
    (["3"%byte], "Character device node");
    (["4"%byte], "Block device node");
    (["5"%byte], "Directory");
    (["6"%byte], "FIFO node");
    (["7"%byte], "Reserved");
    (["D"%byte], "Directory entry");
    (["K"%byte], "Long linkname");
    (["L"%byte], "Long pathname");
    (["M"%byte], "Continue of last file");
    (["N"%byte], "Rename/symlink command");
    (["S"%byte], "`sparse' regular file");
    (["V"%byte], "`name' is tape/volume header name") ].

Fixpoint assoc_bytes {V} (table : list (list byte * V)) (k : list byte) : option V :=
  match table with
  | [] => None
  | (k', v) :: table' => if bytes_eqb k' k then Some v else assoc_bytes table' k
  end.

(** [_FILE_TYPES[key]] *)
Definition file_types_getitem (key : list byte) : result string :=
  of_option (KeyError (KBytes key)) (assoc_bytes _FILE_TYPES key).

(** [self._file_to_position[name]] *)
Definition position_getitem (file_to_position : gmap string Z) (name : string) : result Z :=
  of_option (KeyError (KStr name)) (file_to_position !! name).

Definition unpack_second_part (header : list (list byte)) : result (list (list byte)) :=
  let tail := List.last header [] in
  let* second_part :=
    if startswith tail (list_byte_of_string "ustar ") then unpack _HEADER_FMT2 tail
    else unpack _HEADER_FMT3 tail in
  Ok (removelast header ++ second_part)%list.

(** The loop returns [None] (Python's bare [return]) when an index is past
    the header, and otherwise the list with the chosen entries replaced. *)
Fixpoint decode_to_int_from_octal (header : list (list byte)) (decoded_header : list pyval)
    (indexes : list nat) : result (option (list pyval)) :=
  match indexes with
  | [] => Ok (Some decoded_header)
  | i :: indexes' =>
      if (length header <? i)%nat then Ok None
      else
        let* v := int_octal (strip_nul (default [] (header !! i))) in
        decode_to_int_from_octal header (<[i := VInt v]> decoded_header) indexes'
  end.

(** [datetime.fromtimestamp]: the calendar covers the years 1 to 9999 (the
    bounds are those of UTC); the local time zone is not modelled and the
    value keeps the seconds. *)
Definition fromtimestamp (v : pyval) : result pyval :=
  match v with
  | VInt z =>
      if (-62135596800 <? z) && (z <=? 253402300799) then Ok (VDatetime z)
      else Raise ValueError
  | _ => Raise TypeError
  end.

Definition get_file_data (archive : list byte) (start_byte : Z) (filename : string)
  : result FileHeader.t :=
  if start_byte <? 0 then Raise OSError
  else
    let block := pread archive (Z.to_nat start_byte) _BLOCK_SIZE in
    let* fixed := unpack _HEADER_FMT1 block in
    let* header := unpack_second_part fixed in
    let* decoded_header := mapM (fun i => let* s := decode (strip_nul i) in Ok (VStr s)) header in
    let* converted := decode_to_int_from_octal header decoded_header [1; 2; 3; 4; 5]%nat in
    match converted with
    | None => Raise TypeError
    | Some decoded_header =>
        let* mtime := fromtimestamp (default VNone (decoded_header !! 5%nat)) in
        let decoded_header := <[5%nat := mtime]> decoded_header in
        let* type := file_types_getitem (default [] (header !! 7%nat)) in
        let decoded_header := <[7%nat := VStr type]> decoded_header in
        let decoded_header := <[0%nat := VStr filename]> decoded_header in
        FileHeader.new decoded_header
    end.

(** [f.seek(pos); f.read(n)] for any Python value [n]: [None] and [-1] read
    to the end of the file, another negative count is a [ValueError]. *)
Definition read (archive : list byte) (pos : nat) (n : pyval) : result (list byte) :=
  match n with
  | VNone => Ok (drop pos archive)
  | VInt n =>
      if n =? -1 then Ok (drop pos archive)
      else if n <? 0 then Raise ValueError
      else Ok (pread archive pos (Z.to_nat n))
  | _ => Raise TypeError
  end.

Definition get_file_bytes (archive : list byte) (file_to_position : gmap string Z)
    (file_data : FileHeader.t) : result (list byte) :=
  let* offset :=
    match FileHeader.file_name file_data with
    | VStr name => position_getitem file_to_position name
    | VDict _ => Raise TypeError
    | _ => Raise (KeyError KObject)
    end in
  let start := offset + Z.of_nat _BLOCK_SIZE in
  if start <? 0 then Raise OSError
  else
    read archive (Z.to_nat start) (FileHeader.size file_data).

Definition file_stat (archive : list byte) (file_to_position : gmap string Z)
    (filename : string) : result (list (list pyval)) :=
  let* start := position_getitem file_to_position filename in
  let* data := get_file_data archive start filename in
  Ok [ [VStr "Filename"; FileHeader.file_name data; VDict file_to_position];
       [VStr "Type"; FileHeader.file_type data];
       [VStr "Mode"; FileHeader.access_mod data];
       [VStr "UID"; FileHeader.user_id data];
       [VStr "GID"; FileHeader.group_id data];
       [VStr "Size"; FileHeader.size data];
       [VStr "Modification time"; FileHeader.last_mod_time data];
       [VStr "Checksum"; FileHeader.check_sum data];
       [VStr "User name"; FileHeader.user_name data];
       [VStr "Group name"; FileHeader.group_name data] ].

(** ** The two halves of [get_file_data]

    What [get_file_data] does once the block is unpacked, and the header
    tuple of a full block; [get_file_data_eq] below relates them to the
    function. *)

Definition decode_header (header : list (list byte)) (filename : string) : result FileHeader.t :=
    let* decoded_header := mapM (fun i => let* s := decode (strip_nul i) in Ok (VStr s)) header in
    let* converted := decode_to_int_from_octal header decoded_header [1; 2; 3; 4; 5]%nat in
    match converted with
    | None => Raise TypeError
    | Some decoded_header =>
        let* mtime := fromtimestamp (default VNone (decoded_header !! 5%nat)) in
        let decoded_header := <[5%nat := mtime]> decoded_header in
        let* type := file_types_getitem (default [] (header !! 7%nat)) in
        let decoded_header := <[7%nat := VStr type]> decoded_header in
        let decoded_header := <[0%nat := VStr filename]> decoded_header in
        FileHeader.new decoded_header
    end.

(** The header tuple of a 512-byte block. *)
Definition header_of_block (block : list byte) : list (list byte) :=
  [ slice 0 100 block; slice 100 108 block; slice 108 116 block;
        slice 116 124 block; slice 124 136 block; slice 136 148 block;
        slice 148 156 block; slice 156 157 block; slice 157 257 block ]
      ++ unpack_fields
           (if startswith (slice 257 512 block) (list_byte_of_string "ustar ")
            then _HEADER_FMT2 else _HEADER_FMT3)
           (slice 257 512 block).

(** A field as text: NUL padding stripped, decoded. *)
Definition text (bs : list byte) : pyval := VStr (string_of_list_byte (strip_nul bs)).

(** ** The scan *)

(** The local state of one call of [get_names], with the dictionary it
    fills. *)
Record scan_state := mk_state {
  position : nat;
  was_first_zero_block : bool;
  long_link_name : option string;
  file_to_position : gmap string Z
}.

(** A yielded name with the dictionary as it is at that yield. *)
Record event := mk_event {
  ev_name : string;
  ev_index : gmap string Z
}.

(** How an iteration leaves the loop body: on to the next iteration, by
    [return], or by an exception. *)
Inductive control :=
  | Running (st : scan_state)
  | Returned (index : gmap string Z)
  | Raised (e : exn) (index : gmap string Z).

Definition final_index (c : control) : gmap string Z :=
  match c with
  | Running st => file_to_position st
  | Returned index => index
  | Raised _ index => index
  end.

Record scan_result := mk_result {
  events : list event;
  iterations : nat;
  outcome : control
}.

(** [ceil(size / 512)]: the quotient is exact in floating point, the divisor
    being a power of two and a size field holding less than 2^53. *)
Definition ceil_div (a b : Z) : Z := - ((- a) / b).

Section Scanner.

(** For a text that is not ASCII, CPython first maps its decimal digits and
    blanks to ASCII, with Unicode tables that are no part of the
    repository. *)
Variable to_ascii_digits : string -> list byte.

Definition is_ascii (s : string) : bool :=
  forallb (fun b => (Byte.to_N b <? 128)%N) (list_byte_of_string s).

(** [int(s, 8)] for a text [s] *)
Definition int_octal_str (s : string) : result Z :=
  int_octal (if is_ascii s then list_byte_of_string s else to_ascii_digits s).

(** The name of an entry: the pending long name if there is one (it is then
    cleared), the name field of the block otherwise. *)
Definition resolve_name (block : list byte) (pending : option string)
  : result (string * option string) :=
  match pending with
  | Some name =>
      if str_truthy name then Ok (name, None)
      else let* filename := decode (strip_nul (slice 0 100 block)) in Ok (filename, pending)
  | None =>
      let* filename := decode (strip_nul (slice 0 100 block)) in Ok (filename, pending)
  end.

(** One iteration of the loop of [get_names]. *)
Definition get_names_body (archive : list byte) (st : scan_state) : list event * control :=
  let block := pread archive (position st) _BLOCK_SIZE in
  let tell := (position st + length block)%nat in
  let index := file_to_position st in
  if bytes_eqb block _NULL_BLOCK || bytes_eqb block [] then
    if was_first_zero_block st || bytes_eqb block [] then ([], Returned index)
    else ([], Running (mk_state tell true (long_link_name st) index))
  else if bytes_eqb (slice 156 157 block) ["L"%byte] then
    let payload := pread archive tell _BLOCK_SIZE in
    let tell := (tell + length payload)%nat in
    match decode (strip_nul payload) with
    | Ok name => ([], Running (mk_state tell false (Some name) index))
    | Raise e => ([], Raised e index)
    end
  else
    match resolve_name block (long_link_name st) with
    | Raise e => ([], Raised e index)
    | Ok (name, pending) =>
        let index := <[name := Z.of_nat tell - Z.of_nat _BLOCK_SIZE]> index in
        let ev := mk_event name index in
        match (let* text := decode (strip_nul (slice 124 136 block)) in int_octal_str text) with
        | Raise e => ([ev], Raised e index)
        | Ok size =>
            let target := Z.of_nat tell + ceil_div size 512 * 512 in
            if target <? 0 then ([ev], Raised OSError index)
            else ([ev], Running (mk_state (Z.to_nat target) false pending index))
        end
    end.

(** [for i in range(n)]: the iterations run, what they yield, and how the
    loop ends ([Running] when the range is used up). *)
Fixpoint scan (archive : list byte) (n : nat) (st : scan_state) : scan_result :=
  match n with
  | O => mk_result [] 0 (Running st)
  | S n' =>
      match get_names_body archive st with
      | (evs, Running st') =>
          let r := scan archive n' st' in
          mk_result (evs ++ events r)%list (S (iterations r)) (outcome r)
      | (evs, c) => mk_result evs 1 c
      end
  end.

Definition initial_state (index : gmap string Z) : scan_state :=
  mk_state 0 false None index.

(** The generator run to its end, from the dictionary the parser holds. *)
Definition get_names (archive : list byte) (index : gmap string Z) : scan_result :=
  scan archive 1000 (initial_state index).

Definition names (r : scan_result) : list string := map ev_name (events r).

(** ** Extraction *)

(** The destination: a map from path text to what is there.  Parent
    directories, permissions and the normal form of paths are left out. *)
Inductive node :=
  | File (content : list byte)
  | Directory.

Definition path_exists (fs : gmap string node) (path : string) : bool :=
  bool_decide (is_Some (fs !! path)).

Definition is_str (v : pyval) (s : string) : bool :=
  match v with
  | VStr t => String.eqb t s
  | _ => false
  end.

(** [with open(path, mode) as f: f.write(self.get_file_bytes(data))]: the
    file is opened (created or emptied) before the payload is read. *)
Definition write_payload (archive : list byte) (index : gmap string Z)
    (data : FileHeader.t) (exclusive : bool) (path : string) (fs : gmap string node)
  : gmap string node * option exn :=
  match fs !! path with
  | Some Directory => (fs, Some (if exclusive then FileExistsError else IsADirectoryError))
  | Some (File _) =>
      if exclusive then (fs, Some FileExistsError)
      else
        match get_file_bytes archive index data with
        | Ok payload => (<[path := File payload]> fs, None)
        | Raise e => (<[path := File []]> fs, Some e)
        end
  | None =>
      match get_file_bytes archive index data with
      | Ok payload => (<[path := File payload]> fs, None)
      | Raise e => (<[path := File []]> fs, Some e)
      end
  end.

(** The body of the loop of [extract] for one yielded name. *)
Definition extract_entry (archive : list byte) (dest : string) (ev : event)
    (fs : gmap string node) : gmap string node * option exn :=
  match (let* start := position_getitem (ev_index ev) (ev_name ev) in
         get_file_data archive start (ev_name ev)) with
  | Raise e => (fs, Some e)
  | Ok data =>
      match FileHeader.file_name data with
      | VStr file_name =>
          let path := (dest ++ "/" ++ file_name)%string in
          if is_str (FileHeader.file_type data) "Directory" then
            if negb (path_exists fs path) then (<[path := Directory]> fs, None)
            else (fs, None)
          else if is_str (FileHeader.file_type data) "Regular file" then
            if negb (path_exists fs path)
            then write_payload archive (ev_index ev) data true path fs
            else write_payload archive (ev_index ev) data false path fs
          else (fs, None)
      | _ => (fs, Some TypeError)
      end
  end.

Fixpoint extract_loop (archive : list byte) (dest : string) (evs : list event)
    (fs : gmap string node) : gmap string node * option exn :=
  match evs with
  | [] => (fs, None)
  | ev :: evs' =>
      match extract_entry archive dest ev fs with
      | (fs', None) => extract_loop archive dest evs' fs'
      | failed => failed
      end
  end.

(** [extract]: each yielded name is handled before the generator goes on;
    an exception of the generator comes after the names it has yielded. *)
Definition extract (archive : list byte) (index : gmap string Z) (dest : string)
    (fs : gmap string node) : gmap string node * option exn :=
  let r := get_names archive index in
  match extract_loop archive dest (events r) fs with
  | (fs', None) =>
      (fs', match outcome r with Raised e _ => Some e | _ => None end)
  | failed => failed
  end.

End Scanner.

(** ** Comparing scans *)

(** The exception a scan ends with, if any. *)
Definition raised (c : control) : option exn :=
  match c with
  | Raised e _ => Some e
  | _ => None
  end.

(** A position that is a whole number of blocks. *)
Definition on_boundary (n : nat) : Prop := exists q, n = (512 * q)%nat.

(** Two scans list the same archive: the same names with the same
    dictionaries, the same final dictionary, the same exception if any. *)
Definition same_listing (r1 r2 : scan_result) : Prop :=
  events r1 = events r2
  /\ final_index (outcome r1) = final_index (outcome r2)
  /\ raised (outcome r1) = raised (outcome r2).

Definition nothing_more (r : scan_result) (index : gmap string Z) : Prop :=
  events r = [] /\ final_index (outcome r) = index /\ raised (outcome r) = None.

(** ** Sample archives *)

Module Samples.

Definition bytes (s : string) : list byte := list_byte_of_string s.

(** A field of [n] bytes, NUL padded. *)
Definition field (n : nat) (bs : list byte) : list byte :=
  (take n bs ++ replicate (n - length bs) x00)%list.

Definition gnu_tail (uname gname : string) : list byte :=
  field 255 (bytes "ustar  " ++ [x00] ++ field 32 (bytes uname) ++ field 32 (bytes gname))%list.

Definition posix_tail (uname gname : string) : list byte :=
  field 255 (bytes "ustar" ++ [x00] ++ bytes "00"
               ++ field 32 (bytes uname) ++ field 32 (bytes gname))%list.

Definition header (name mode size : string) (typeflag : byte) (tail : list byte) : list byte :=
  (field 100 (bytes name) ++ field 8 (bytes mode)
     ++ field 8 (bytes "0001750") ++ field 8 (bytes "0001750")
     ++ field 12 (bytes size) ++ field 12 (bytes "12345670123")
     ++ field 8 (bytes "005492") ++ [typeflag] ++ field 100 []
     ++ field 255 tail)%list.

Definition data_block (content : string) : list byte := field 512 (bytes content).

(** No text of the samples is outside ASCII. *)
Definition no_unicode (s : string) : list byte := bytes "?".

(** The dictionary after one full scan of an archive. *)
Definition index_of (archive : list byte) : gmap string Z :=
  final_index (outcome (get_names no_unicode archive ∅)).

(** One regular file of five bytes, as GNU tar writes it. *)
Definition gnu_header : list byte :=
  header "data/a.txt" "0000644" "00000000005" "0"%byte (gnu_tail "victor" "victor").
Definition gnu_archive : list byte :=
  gnu_header ++ data_block "hello" ++ _NULL_BLOCK ++ _NULL_BLOCK.

(** The same entry with the POSIX magic [ustar\0] and version [00]. *)
Definition posix_archive : list byte :=
  header "data/a.txt" "0000644" "00000000005" "0"%byte (posix_tail "victor" "victor")
    ++ data_block "hello" ++ _NULL_BLOCK ++ _NULL_BLOCK.

(** The same entry with the type flag [9]. *)
Definition unknown_type_archive : list byte :=
  header "data/a.txt" "0000644" "00000000005" "9"%byte (gnu_tail "victor" "victor")
    ++ data_block "hello" ++ _NULL_BLOCK ++ _NULL_BLOCK.

(** The same entry in a file cut after two bytes of the payload. *)
Definition truncated_archive : list byte := gnu_header ++ bytes "he".

(** The block GNU tar writes before an entry whose name is long, and a name
    of 108 bytes with its first 100 bytes. *)
Definition long_block : list byte :=
  header "././@LongLink" "0000000" "00000000155" "L"%byte (gnu_tail "root" "root").

Fixpoint repeat_text (n : nat) (s : string) : string :=
  match n with
  | O => EmptyString
  | S n' => (s ++ repeat_text n' s)%string
  end.

Definition truncated_name : string := repeat_text 10 "directory/".
Definition long_name : string := (truncated_name ++ "file.txt")%string.

Definition truncated_header : list byte :=
  header truncated_name "0000644" "00000000005" "0"%byte (gnu_tail "victor" "victor").

(** A file with a long name, as GNU tar writes it. *)
Definition long_name_archive : list byte :=
  long_block ++ data_block long_name ++ truncated_header ++ data_block "hello"
    ++ _NULL_BLOCK ++ _NULL_BLOCK.

(** The same after the directory that holds the file, whose own name is the
    first 100 bytes of the long name. *)
Definition directory_archive : list byte :=
  header truncated_name "0000755" "00000000000" "5"%byte (gnu_tail "victor" "victor")
    ++ long_name_archive.

(** A long-name block whose payload block is all NUL. *)
Definition short_header : list byte :=
  header "short.txt" "0000644" "00000000005" "0"%byte (gnu_tail "victor" "victor").
Definition empty_long_name_archive : list byte :=
  long_block ++ _NULL_BLOCK ++ short_header ++ data_block "hello"
    ++ _NULL_BLOCK ++ _NULL_BLOCK.

(** A zero block between two entries. *)
Definition gap_archive : list byte :=
  _NULL_BLOCK ++ gnu_archive.

(** A directory entry. *)
Definition directory_header : list byte :=
  header "data/" "0000755" "00000000000" "5"%byte (gnu_tail "victor" "victor").

(** A symbolic link. *)
Definition symlink_header : list byte :=
  header "link" "0000777" "00000000000" "2"%byte (gnu_tail "victor" "victor").

(** Texts for the values whose text the model leaves open. *)
Definition no_datetime (t : Z) : string := "1970-01-01 00:00:00".
Definition no_dict (d : gmap string Z) : string := "{}".

End Samples.

(** ** The dictionary as a record of yields *)

(** The name an event was yielded under with the offset the dictionary gives
    it at that moment. *)
Definition offsets (r : scan_result) : list (string * Z) :=
  map (fun ev => (ev_name ev, default 0 (ev_index ev !! ev_name ev))) (events r).

(** The assignments [self._file_to_position[name] = offset], in order. *)
Definition record_all (index : gmap string Z) (ys : list (string * Z)) : gmap string Z :=
  foldl (fun m y => <[y.1 := y.2]> m) index ys.

(** The dictionary after each of the assignments. *)
Fixpoint snapshots (index : gmap string Z) (ys : list (string * Z)) : list (gmap string Z) :=
  match ys with
  | [] => []
  | y :: ys' => <[y.1 := y.2]> index :: snapshots (<[y.1 := y.2]> index) ys'
  end.

(** The offset of the last of the assignments to a name. *)
Definition last_offset (name : string) (ys : list (string * Z)) : option Z :=
  foldl (fun acc y => if decide (y.1 = name) then Some y.2 else acc) None ys.

(** The size field of a header block as the scan reads it. *)
Definition size_field (to_ascii_digits : string -> list byte) (block : list byte) : result Z :=
  let* text := decode (strip_nul (slice 124 136 block)) in
  int_octal_str to_ascii_digits text.

(** What a way out of the loop body is, the dictionary left aside. *)
Definition shape (c : control) : option (nat * bool * option string) * option exn :=
  match c with
  | Running st => (Some (position st, was_first_zero_block st, long_link_name st), None)
  | Returned _ => (None, None)
  | Raised e _ => (None, Some e)
  end.

(** ** Archives as a writer lays them out *)

(** An entry: its header block, its payload padded to whole blocks, and the
    name and size its header declares. *)
Record entry := mk_entry {
  entry_header : list byte;
  entry_data : list byte;
  entry_name : string;
  entry_size : Z
}.

Definition laid_out (to_ascii_digits : string -> list byte) (e : entry) : Prop :=
  length (entry_header e) = 512%nat
  /\ entry_header e <> _NULL_BLOCK
  /\ slice 156 157 (entry_header e) <> ["L"%byte]
  /\ decode (strip_nul (slice 0 100 (entry_header e))) = Ok (entry_name e)
  /\ size_field to_ascii_digits (entry_header e) = Ok (entry_size e)
  /\ 0 <= entry_size e
  /\ Z.of_nat (length (entry_data e)) = ceil_div (entry_size e) 512 * 512.

Definition entry_bytes (e : entry) : list byte := entry_header e ++ entry_data e.

Definition archive_of (es : list entry) : list byte := concat (map entry_bytes es).

(** The names of the entries with the offsets of their header blocks, the
    first header being at [pos]. *)
Fixpoint entry_offsets (pos : nat) (es : list entry) : list (string * Z) :=
  match es with
  | [] => []
  | e :: es' =>
      (entry_name e, Z.of_nat pos) :: entry_offsets (pos + length (entry_bytes e)) es'
  end.

(** [k] zero blocks. *)
Definition zero_blocks (k : nat) : list byte := replicate (512 * k) x00.

(** ** The destination and the numbers *)

(** What is at a path is kept: a directory stays a directory, a file stays
    a file (of whatever content). *)
Definition kept (before after : option node) : Prop :=
  match before with
  | Some Directory => after = Some Directory
  | Some (File _) => exists content, after = Some (File content)
  | None => True
  end.

(** The number a run of octal digits writes. *)
Definition octal_value (ds : list byte) : Z :=
  foldl (fun acc b => 8 * acc + default 0 (octal_digit b)) 0 ds.


(** ** The module-level [read] *)

Module Untar.

(** [read(file, block_num)]: block [block_num] of the file.  An offset that
    does not fit 64 bits is a [ValueError] of [seek], a negative one and one
    beyond [max_offset], the largest the file system takes, an [OSError]. *)
Definition read (max_offset : Z) (archive : list byte) (block_num : Z) : result (list byte) :=
  let offset := 512 * block_num in
  if (offset <? - 2 ^ 63) || (2 ^ 63 <=? offset) then Raise ValueError
  else if (offset <? 0) || (max_offset <? offset) then Raise OSError
  else Ok (pread archive (Z.to_nat offset) 512).

End Untar.

(** ** Printing *)

(** [print_file_info] can raise [IndexError] as well. *)
Inductive exception :=
  | Exn (e : exn)
  | IndexError.

(** [len] of a text: its code points, the bytes of the UTF-8 encoding that
    are no continuation bytes. *)
Definition str_len (s : string) : nat :=
  length (List.filter (fun b => negb ((128 <=? Byte.to_N b) && (Byte.to_N b <? 192))%N)
            (list_byte_of_string s)).

Fixpoint spaces (n : nat) : string :=
  match n with
  | O => EmptyString
  | S n' => String " " (spaces n')
  end.

(** [format(s, '>width')] for a text *)
Definition rjust (width : nat) (s : string) : string :=
  (spaces (width - str_len s) ++ s)%string.

Definition len (v : pyval) : option nat :=
  match v with
  | VStr s => Some (str_len s)
  | VDict d => Some (size d)
  | _ => None
  end.

(** [len(s[0])] *)
Definition label_width (s : list pyval) : exception + nat :=
  match s with
  | [] => inl IndexError
  | label :: _ =>
      match len label with
      | Some n => inr n
      | None => inl (Exn TypeError)
      end
  end.

Fixpoint max_from (acc : nat) (stat : list (list pyval)) : exception + nat :=
  match stat with
  | [] => inr acc
  | s :: stat' =>
      match label_width s with
      | inl e => inl e
      | inr n => max_from (Nat.max acc n) stat'
      end
  end.

(** [max(map(lambda s: len(s[0]), stat))] *)
Definition max_width (stat : list (list pyval)) : exception + nat :=
  match stat with
  | [] => inl (Exn ValueError)
  | s :: stat' =>
      match label_width s with
      | inl e => inl e
      | inr n => max_from n stat'
      end
  end.

(** [sorted] on texts: Python orders them by code point, which is the order
    of the bytes of their UTF-8 encoding. *)
Definition str_le (a b : string) : Prop := String.leb a b = true.

#[global] Instance str_le_dec a b : Decision (str_le a b) := decide (String.leb a b = true).

Definition sorted (l : list string) : list string := merge_sort str_le l.

(** A field as [file_stat] makes them: a label that is a text, a value, and
    possibly more. *)
Definition labelled (field : list pyval) : Prop :=
  exists label value rest, field = VStr label :: value :: rest.

(** A field whose label is a text of the given length. *)
Definition label_is (width : nat) (field : list pyval) : Prop :=
  exists label rest, field = VStr label :: rest /\ str_len label = width.

Module Args.

(** What [parse_args] returns, without the file name. *)
Record t := mk {
  ls : bool;
  extract : bool;
  info : bool
}.

End Args.

(** How [main] ends: [sys.exit] with a message, or with the exception
    caught. *)
Inductive exit :=
  | ExitMessage (s : string)
  | ExitException (e : exception).

Record run := mk_run {
  printed : list string;
  written : gmap string node;
  exited : option exit
}.

Section Program.

Variable to_ascii_digits : string -> list byte.

(** The text of a [datetime] depends on the local time zone, that of a dict
    on the order its keys were inserted in. *)
Variable str_datetime : Z -> string.
Variable str_dict : gmap string Z -> string.

(** [str(v)], which is what [format] puts for a [{}] field *)
Definition str (v : pyval) : string :=
  match v with
  | VNone => "None"
  | VStr s => s
  | VInt z => NilZero.string_of_int (Z.to_int z)
  | VDatetime t => str_datetime t
  | VDict d => str_dict d
  end.

(** The line of one field: the first component right-aligned to the width,
    [ : ], the second component.  Of the values with a length only a text
    takes a width; components after the second are not used. *)
Definition format_field (width : nat) (field : list pyval) : exception + string :=
  match field with
  | [] => inl IndexError
  | VStr label :: rest =>
      match rest with
      | [] => inl IndexError
      | value :: _ => inr (rjust width label ++ " : " ++ str value)%string
      end
  | _ :: _ => inl (Exn TypeError)
  end.

Fixpoint print_fields (width : nat) (stat : list (list pyval)) : list string * option exception :=
  match stat with
  | [] => ([], None)
  | field :: stat' =>
      match format_field width field with
      | inl e => ([], Some e)
      | inr line =>
          match print_fields width stat' with
          | (lines, e) => (line :: lines, e)
          end
      end
  end.

(** The lines written to [f] and the exception, if any. *)
Definition print_file_info (stat : list (list pyval)) : list string * option exception :=
  match max_width stat with
  | inl e => ([], Some e)
  | inr width => print_fields width stat
  end.

(** [for fn in ...: print_file_info(tar.file_stat(fn)); print()] *)
Fixpoint info_loop (archive : list byte) (index : gmap string Z) (fns : list string)
  : list string * option exception :=
  match fns with
  | [] => ([], None)
  | fn :: fns' =>
      match file_stat archive index fn with
      | Raise e => ([], Some (Exn e))
      | Ok stat =>
          match print_file_info stat with
          | (lines, Some e) => (lines, Some e)
          | (lines, None) =>
              match info_loop archive index fns' with
              | (rest, e) => (lines ++ EmptyString :: rest, e)
              end
          end
      end
  end.

(** [main] once the arguments are parsed, on an archive that can be opened
    and a standard output that takes every text; [printed] has the text of
    each call of [print].  [sorted] runs the generator to its end before the
    first line is printed; [extract] scans again, with the dictionary a
    listing has left. *)
Definition main (args : Args.t) (archive : list byte) (dest : string)
    (fs : gmap string node) : run :=
  if negb (Args.ls args || Args.extract args || Args.info args) then
    mk_run [] fs (Some (ExitMessage "Error: action must be specified"))
  else
    let r := get_names to_ascii_digits archive ∅ in
    let listing :=
      if Args.info args then
        match outcome r with
        | Raised e _ => ([], Some (Exn e))
        | _ => info_loop archive (final_index (outcome r)) (sorted (names r))
        end
      else if Args.ls args then
        match outcome r with
        | Raised e _ => ([], Some (Exn e))
        | _ => (sorted (names r), None)
        end
      else ([], None) in
    match listing with
    | (lines, Some e) => mk_run lines fs (Some (ExitException e))
    | (lines, None) =>
        if Args.extract args then
          let index :=
            if Args.info args || Args.ls args then final_index (outcome r) else ∅ in
          match extract to_ascii_digits archive index dest fs with
          | (fs', e) => mk_run lines fs' (option_map (fun e => ExitException (Exn e)) e)
          end
        else mk_run lines fs None
    end.

End Program.

(** * Properties *)

(** ** The header codec *)

Lemma bytes_eqb_eq a b : bytes_eqb a b = true <-> a = b.
Proof.
  revert b. induction a as [|x a IH]; intros [|y b]; simpl; try (split; congruence).
  rewrite andb_true_iff, IH. split.
  - intros [Hxy ->]. apply Byte.byte_dec_bl in Hxy. by subst.
  - intros [= -> ->]. split; [by apply Byte.byte_dec_lb | done].
Qed.

Lemma unpack_ok fmt bs :
  length bs = calcsize fmt -> unpack fmt bs = Ok (unpack_fields fmt bs).
Proof. intros H. unfold unpack. rewrite H, Nat.eqb_refl. done. Qed.

Lemma fixed_fields block :
  unpack_fields _HEADER_FMT1 block =
    [ slice 0 100 block; slice 100 108 block; slice 108 116 block;
      slice 116 124 block; slice 124 136 block; slice 136 148 block;
      slice 148 156 block; slice 156 157 block; slice 157 257 block;
      slice 257 512 block ].
Proof.
  unfold _HEADER_FMT1, slice. cbn [unpack_fields item_size].
  rewrite !drop_drop. reflexivity.
Qed.

Lemma slice_length {A} (lo hi : nat) (l : list A) :
  (hi <= length l)%nat -> length (slice lo hi l) = (hi - lo)%nat.
Proof. intros H. unfold slice. rewrite length_take, length_drop. lia. Qed.

Lemma decode_error bs e : decode bs = Raise e -> e = UnicodeDecodeError.
Proof. unfold decode. destruct (utf8_valid _); congruence. Qed.

Lemma int_octal_error bs e : int_octal bs = Raise e -> e = ValueError.
Proof.
  unfold int_octal. destruct (skip_sign _) as [negative s].
  destruct (startswith _ _); [congruence|].
  destruct (scan_octal _ _ _ _) as [[[v [|d]] rest]|]; try congruence.
  destruct (skip_spaces rest); congruence.
Qed.

Lemma mapM_decode_error l e :
  mapM (fun i => let* s := decode (strip_nul i) in Ok (VStr s)) l = Raise e ->
  e = UnicodeDecodeError.
Proof.
  induction l as [|i l IH]; simpl; [congruence|].
  destruct (decode (strip_nul i)) eqn:Hd; simpl.
  - destruct (mapM _ l); simpl; [congruence|]. intros [= <-]. by apply IH.
  - intros [= <-]. by apply decode_error in Hd.
Qed.

Lemma mapM_decode_ok l dec :
  mapM (fun i => let* s := decode (strip_nul i) in Ok (VStr s)) l = Ok dec ->
  dec = map (fun i => VStr (string_of_list_byte (strip_nul i))) l.
Proof.
  revert dec. induction l as [|i l IH]; simpl; intros dec; [congruence|].
  unfold decode at 1. destruct (utf8_valid _); simpl; [|congruence].
  destruct (mapM _ l); simpl; [|congruence].
  intros [= <-]. f_equal. by apply IH.
Qed.

(** The header tuple of a 512-byte block. *)
Lemma unpack_header block :
  length block = 512%nat ->
  (let* fixed := unpack _HEADER_FMT1 block in unpack_second_part fixed) =
  Ok ([ slice 0 100 block; slice 100 108 block; slice 108 116 block;
        slice 116 124 block; slice 124 136 block; slice 136 148 block;
        slice 148 156 block; slice 156 157 block; slice 157 257 block ]
      ++ unpack_fields
           (if startswith (slice 257 512 block) (list_byte_of_string "ustar ")
            then _HEADER_FMT2 else _HEADER_FMT3)
           (slice 257 512 block)).
Proof.
  intros Hlen. rewrite unpack_ok by (rewrite Hlen; reflexivity).
  rewrite fixed_fields. unfold bind, unpack_second_part.
  cbn [List.last removelast].
  assert (length (slice 257 512 block) = 255%nat) as Htail
    by (rewrite slice_length; lia).
  destruct (startswith _ _); rewrite unpack_ok by (rewrite Htail; reflexivity);
    reflexivity.
Qed.

Lemma get_file_data_eq archive start filename :
  0 <= start ->
  length (pread archive (Z.to_nat start) _BLOCK_SIZE) = 512%nat ->
  get_file_data archive start filename =
  decode_header (header_of_block (pread archive (Z.to_nat start) _BLOCK_SIZE)) filename.
Proof.
  intros Hpos Hlen. unfold get_file_data.
  destruct (Z.ltb_spec start 0); [lia|].
  pose proof (unpack_header _ Hlen) as Hu.
  destruct (unpack _HEADER_FMT1 _) as [fixed|]; [|discriminate].
  cbn [bind] in Hu |- *. rewrite Hu. reflexivity.
Qed.

Lemma decode_header_result filename f0 f1 f2 f3 f4 f5 f6 f7 f8 rest :
  decode_header (f0 :: f1 :: f2 :: f3 :: f4 :: f5 :: f6 :: f7 :: f8 :: rest) filename =
  let* _ := mapM (fun i => let* s := decode (strip_nul i) in Ok (VStr s))
              (f0 :: f1 :: f2 :: f3 :: f4 :: f5 :: f6 :: f7 :: f8 :: rest) in
  let* mode := int_octal (strip_nul f1) in
  let* uid := int_octal (strip_nul f2) in
  let* gid := int_octal (strip_nul f3) in
  let* size := int_octal (strip_nul f4) in
  let* seconds := int_octal (strip_nul f5) in
  let* mtime := fromtimestamp (VInt seconds) in
  let* type := file_types_getitem f7 in
  FileHeader.new (VStr filename :: VInt mode :: VInt uid :: VInt gid :: VInt size :: mtime
                    :: text f6 :: VStr type :: text f8 :: map text rest).
Proof.
  unfold decode_header.
  destruct (mapM _ _) as [dec|e] eqn:Hdec; [|reflexivity].
  apply mapM_decode_ok in Hdec. cbn [map] in Hdec. subst dec. cbn [bind].
  simpl.
  repeat (match goal with
          | |- context [int_octal ?x] => destruct (int_octal x); simpl; [|reflexivity]
          end).
  reflexivity.
Qed.

Lemma get_file_data_short archive start filename :
  0 <= start ->
  length (pread archive (Z.to_nat start) _BLOCK_SIZE) <> 512%nat ->
  get_file_data archive start filename = Raise StructError.
Proof.
  intros Hpos Hlen. unfold get_file_data, unpack.
  destruct (Z.ltb_spec start 0); [lia|].
  destruct (Nat.eqb_spec (length (pread archive (Z.to_nat start) _BLOCK_SIZE))
              (calcsize _HEADER_FMT1)) as [Heq|]; [|reflexivity].
  contradiction.
Qed.

Lemma get_file_data_negative archive start filename :
  start < 0 -> get_file_data archive start filename = Raise OSError.
Proof.
  intros Hneg. unfold get_file_data. destruct (Z.ltb_spec start 0); [reflexivity|lia].
Qed.

Ltac header_binds :=
  repeat match goal with
    | |- context [bind ?c _] =>
        match c with
        | mapM _ _ => idtac | int_octal _ => idtac
        | fromtimestamp _ => idtac | file_types_getitem _ => idtac
        end;
        let H := fresh "Hstep" in destruct c eqn:H; cbn [bind]
    | H : context [bind ?c _] |- _ =>
        match c with
        | mapM _ _ => idtac | int_octal _ => idtac
        | fromtimestamp _ => idtac | file_types_getitem _ => idtac
        end;
        let H' := fresh "Hstep" in destruct c eqn:H'; cbn [bind] in H
    end.

Lemma fromtimestamp_int z v : fromtimestamp (VInt z) = Ok v -> v = VDatetime z.
Proof. unfold fromtimestamp. destruct (_ && _); congruence. Qed.

Lemma fromtimestamp_int_error z e : fromtimestamp (VInt z) = Raise e -> e = ValueError.
Proof. unfold fromtimestamp. destruct (_ && _); congruence. Qed.

Lemma file_types_getitem_ok key type :
  file_types_getitem key = Ok type -> assoc_bytes _FILE_TYPES key = Some type.
Proof. unfold file_types_getitem. destruct (assoc_bytes _ _); simpl; congruence. Qed.

(** A record comes only from a full block at a position that is not negative,
    with the GNU marker in its tail; its numbers are integers read in base
    8. *)
Lemma get_file_data_Ok archive start filename d :
  get_file_data archive start filename = Ok d ->
  let block := pread archive (Z.to_nat start) _BLOCK_SIZE in
  0 <= start /\ length block = 512%nat /\
  startswith (slice 257 512 block) (list_byte_of_string "ustar ") = true /\
  exists mode uid gid size seconds type,
    int_octal (strip_nul (slice 100 108 block)) = Ok mode /\
    int_octal (strip_nul (slice 124 136 block)) = Ok size /\
    assoc_bytes _FILE_TYPES (slice 156 157 block) = Some type /\
    FileHeader.file_name d = VStr filename /\
    FileHeader.access_mod d = VInt mode /\
    FileHeader.user_id d = VInt uid /\
    FileHeader.group_id d = VInt gid /\
    FileHeader.size d = VInt size /\
    FileHeader.last_mod_time d = VDatetime seconds /\
    FileHeader.file_type d = VStr type.
Proof.
  intros H block.
  destruct (Z.lt_ge_cases start 0) as [Hneg|Hpos];
    [rewrite get_file_data_negative in H by done; discriminate|].
  destruct (decide (length block = 512%nat)) as [Hlen|Hlen];
    [|rewrite get_file_data_short in H by done; discriminate].
  rewrite get_file_data_eq in H by done. fold block in H.
  unfold header_of_block in H.
  destruct (startswith (slice 257 512 block) _) eqn:Hmagic;
    cbn [unpack_fields item_size app _HEADER_FMT2 _HEADER_FMT3] in H;
    rewrite decode_header_result in H; header_binds; try discriminate.
  repeat match goal with
    | Hs : fromtimestamp (VInt _) = Ok _ |- _ => apply fromtimestamp_int in Hs; subst
    | Hs : file_types_getitem _ = Ok _ |- _ => apply file_types_getitem_ok in Hs
    end.
  cbn in H. injection H as <-.
  repeat split; try done. by eexists _, _, _, _, _, _.
Qed.

(** With any other tail the header has one field more than the record. *)
Lemma pre_ustar_tail_never_decoded archive start filename :
  startswith (slice 257 512 (pread archive (Z.to_nat start) _BLOCK_SIZE))
    (list_byte_of_string "ustar ") = false ->
  exists e, get_file_data archive start filename = Raise e.
Proof.
  intros Hmagic. destruct (get_file_data archive start filename) as [d|e] eqn:H; [|by eexists].
  apply get_file_data_Ok in H as (_ & _ & Hm & _). congruence.
Qed.

(** A record is never built from a tail that lacks the [ustar ] marker: on
    the POSIX sample, whose fields all decode, the eighteen fields of the
    header meet a record of seventeen and the call ends in a [TypeError]. *)
Example posix_header_never_decoded :
  exists e, get_file_data Samples.posix_archive 0 "data/a.txt" = Raise e.
Proof. apply pre_ustar_tail_never_decoded. vm_compute. reflexivity. Qed.

(** C1: on the header block of the POSIX sample (magic [ustar] followed by
    NUL, so a tail that does not begin with the marker) [get_file_data]
    ends in a [TypeError], which is neither a record nor a malformed-header
    error. *)
Theorem C1_pre_ustar_tail_raises_type_error :
  startswith (slice 257 512 (pread Samples.posix_archive 0 _BLOCK_SIZE))
    (list_byte_of_string "ustar ") = false
  /\ get_file_data Samples.posix_archive 0 "data/a.txt" = Raise TypeError
  /\ kind_of TypeError = None.
Proof. vm_compute. auto. Qed.

(** The mode of every record is an integer, the value of the octal text. *)
Lemma access_mod_is_integer archive start filename data :
  get_file_data archive start filename = Ok data ->
  exists mode,
    int_octal (strip_nul (slice 100 108 (pread archive (Z.to_nat start) _BLOCK_SIZE))) = Ok mode
    /\ FileHeader.access_mod data = VInt mode.
Proof.
  intros H. apply get_file_data_Ok in H
    as (_ & _ & _ & mode & uid & gid & size & seconds & type & Hmode & _ & _ & _ & Hd & _).
  by exists mode.
Qed.

(** C3: on the GNU sample, whose mode field holds the text [0000644], the
    record and the Mode display field hold the integer 420 and not that
    text. *)
Theorem C3_mode_is_converted_to_integer :
  strip_nul (slice 100 108 (pread Samples.gnu_archive 0 _BLOCK_SIZE))
    = list_byte_of_string "0000644"
  /\ (exists data, get_file_data Samples.gnu_archive 0 "data/a.txt" = Ok data
                   /\ FileHeader.access_mod data = VInt 420)
  /\ (exists info, file_stat Samples.gnu_archive (Samples.index_of Samples.gnu_archive)
                     "data/a.txt" = Ok info
                   /\ info !! 2%nat = Some [VStr "Mode"; VInt 420]).
Proof.
  split; [vm_compute; reflexivity|]. split.
  - destruct (get_file_data Samples.gnu_archive 0 "data/a.txt") as [data|e] eqn:H;
      [|vm_compute in H; discriminate].
    exists data. split; [reflexivity|]. vm_compute in H. by injection H as <-.
  - destruct (file_stat Samples.gnu_archive (Samples.index_of Samples.gnu_archive)
                "data/a.txt") as [info|e] eqn:H; [|vm_compute in H; discriminate].
    exists info. split; [reflexivity|]. vm_compute in H. by injection H as <-.
Qed.

(** The display fields: the labels in their order, and a first entry of
    three components, the third being the position dictionary. *)
Lemma file_stat_fields archive index filename info :
  file_stat archive index filename = Ok info ->
  exists data,
    info = [ [VStr "Filename"; FileHeader.file_name data; VDict index];
             [VStr "Type"; FileHeader.file_type data];
             [VStr "Mode"; FileHeader.access_mod data];
             [VStr "UID"; FileHeader.user_id data];
             [VStr "GID"; FileHeader.group_id data];
             [VStr "Size"; FileHeader.size data];
             [VStr "Modification time"; FileHeader.last_mod_time data];
             [VStr "Checksum"; FileHeader.check_sum data];
             [VStr "User name"; FileHeader.user_name data];
             [VStr "Group name"; FileHeader.group_name data] ].
Proof.
  unfold file_stat. destruct (position_getitem index filename); [|discriminate].
  cbn [bind]. destruct (get_file_data archive a filename) as [data|]; [|discriminate].
  cbn [bind]. intros [= <-]. by exists data.
Qed.

(** C4: on the GNU sample [file_stat] returns the ten labels in their order,
    but the Filename entry has three components, the third being the whole
    position dictionary, where a pair of label and value is claimed. *)
Theorem C4_filename_entry_is_a_triple :
  exists info,
    file_stat Samples.gnu_archive (Samples.index_of Samples.gnu_archive) "data/a.txt" = Ok info
    /\ map (fun entry => default VNone (entry !! 0%nat)) info
       = [ VStr "Filename"; VStr "Type"; VStr "Mode"; VStr "UID"; VStr "GID"; VStr "Size";
           VStr "Modification time"; VStr "Checksum"; VStr "User name"; VStr "Group name" ]
    /\ map length info = [3; 2; 2; 2; 2; 2; 2; 2; 2; 2]%nat
    /\ info !! 0%nat = Some [ VStr "Filename"; VStr "data/a.txt";
                              VDict (Samples.index_of Samples.gnu_archive) ].
Proof.
  destruct (file_stat Samples.gnu_archive (Samples.index_of Samples.gnu_archive) "data/a.txt")
    as [info|e] eqn:H; [|vm_compute in H; discriminate].
  exists info. split; [reflexivity|].
  unfold file_stat in H. destruct (position_getitem _ _) as [start|]; [|discriminate].
  cbn [bind] in H. destruct (get_file_data _ start _) as [data|] eqn:Hd; [|discriminate].
  apply get_file_data_Ok in Hd as (_ & _ & _ & ? & ? & ? & ? & ? & ? & _ & _ & _ & Hn & _).
  cbn [bind] in H. injection H as <-. rewrite Hn. repeat split.
Qed.

(** C8: when the index points at a full header block whose type flag is not
    a key of the type table, [file_stat] fails; the exception is the
    [KeyError] of the table lookup, carrying the unknown flag, unless a
    field of the block already failed to decode as text or as an octal
    number.  Each of these is a malformed-header error. *)
Theorem C8_unknown_typeflag_is_malformed_header
    (archive : list byte) (index : gmap string Z) (filename : string) (start : Z) :
  index !! filename = Some start ->
  0 <= start ->
  length (pread archive (Z.to_nat start) _BLOCK_SIZE) = 512%nat ->
  assoc_bytes _FILE_TYPES (slice 156 157 (pread archive (Z.to_nat start) _BLOCK_SIZE)) = None ->
  exists e,
    file_stat archive index filename = Raise e
    /\ kind_of e = Some MalformedHeader
    /\ (e = KeyError (KBytes (slice 156 157 (pread archive (Z.to_nat start) _BLOCK_SIZE)))
        \/ e = UnicodeDecodeError \/ e = ValueError).
Proof.
  intros Hidx Hpos Hlen Htype. unfold file_stat, position_getitem.
  rewrite Hidx. cbn [of_option bind].
  rewrite get_file_data_eq by done.
  set (block := pread archive (Z.to_nat start) _BLOCK_SIZE) in *.
  unfold header_of_block.
  assert (file_types_getitem (slice 156 157 block)
          = Raise (KeyError (KBytes (slice 156 157 block)))) as Hkey
    by (unfold file_types_getitem; by rewrite Htype).
  destruct (startswith (slice 257 512 block) _);
    cbn [unpack_fields item_size app _HEADER_FMT2 _HEADER_FMT3];
    rewrite decode_header_result, Hkey; header_binds;
    repeat match goal with
      | H : mapM _ _ = Raise _ |- _ => apply mapM_decode_error in H; subst
      | H : int_octal _ = Raise _ |- _ => apply int_octal_error in H; subst
      | H : fromtimestamp (VInt _) = Raise _ |- _ => apply fromtimestamp_int_error in H; subst
      end;
    eexists; (split; [reflexivity|]); (split; [reflexivity|]); auto.
Qed.

Lemma C8_unknown_typeflag_witness :
  exists e,
    file_stat Samples.unknown_type_archive
      (Samples.index_of Samples.unknown_type_archive) "data/a.txt" = Raise e
    /\ kind_of e = Some MalformedHeader
    /\ (e = KeyError (KBytes (slice 156 157
                                (pread Samples.unknown_type_archive (Z.to_nat 0) _BLOCK_SIZE)))
        \/ e = UnicodeDecodeError \/ e = ValueError).
Proof.
  apply (C8_unknown_typeflag_is_malformed_header
           Samples.unknown_type_archive
           (Samples.index_of Samples.unknown_type_archive) "data/a.txt" 0).
  - vm_compute. reflexivity.
  - lia.
  - vm_compute. reflexivity.
  - vm_compute. reflexivity.
Defined.

(** On the sample the exception is the [KeyError] of the flag [9]. *)
Example unknown_typeflag_key_error :
  file_stat Samples.unknown_type_archive
    (Samples.index_of Samples.unknown_type_archive) "data/a.txt"
  = Raise (KeyError (KBytes ["9"%byte])).
Proof. vm_compute. reflexivity. Qed.

(** ** Payloads *)

Lemma pread_length archive pos n :
  length (pread archive pos n) = Nat.min n (length archive - pos).
Proof. unfold pread. by rewrite length_take, length_drop. Qed.

(** C2 (as amended): for a record whose name is indexed at an offset that is
    not negative and whose size is not negative, [get_file_bytes] returns
    the bytes that start 512 past the offset, [size] of them when that many
    remain and otherwise the shorter rest of the file; it raises nothing when
    the file is cut short. *)
Theorem C2_get_file_bytes_reads_what_remains
    (archive : list byte) (index : gmap string Z) (data : FileHeader.t)
    (name : string) (offset size : Z) :
  FileHeader.file_name data = VStr name ->
  index !! name = Some offset ->
  0 <= offset ->
  FileHeader.size data = VInt size ->
  0 <= size ->
  let payload := pread archive (Z.to_nat (offset + 512)) (Z.to_nat size) in
  get_file_bytes archive index data = Ok payload
  /\ length payload = Nat.min (Z.to_nat size) (length archive - Z.to_nat (offset + 512))
  /\ (offset + 512 + size <= Z.of_nat (length archive) -> Z.of_nat (length payload) = size).
Proof.
  intros Hname Hidx Hoff Hsize Hnonneg payload. split; [|split].
  - unfold get_file_bytes, position_getitem. rewrite Hname, Hidx, Hsize.
    cbn [of_option bind read]. change (Z.of_nat _BLOCK_SIZE) with 512.
    destruct (Z.ltb_spec (offset + 512) 0); [lia|].
    destruct (Z.eqb_spec size (-1)); [lia|].
    destruct (Z.ltb_spec size 0); [lia|]. reflexivity.
  - apply pread_length.
  - intros Hfits. unfold payload. rewrite pread_length. lia.
Qed.

Lemma C2_get_file_bytes_witness :
  let payload := pread Samples.gnu_archive (Z.to_nat (0 + 512)) (Z.to_nat 5) in
  get_file_bytes Samples.gnu_archive {[ "data/a.txt" := 0 ]}
    (FileHeader.mk (VStr "data/a.txt") (VInt 420) (VInt 1000) (VInt 1000) (VInt 5)
       (VDatetime 0) (VStr "") (VStr "Regular file") (VStr "")
       VNone VNone VNone VNone VNone VNone VNone VNone) = Ok payload
  /\ length payload = Nat.min (Z.to_nat 5) (length Samples.gnu_archive - Z.to_nat (0 + 512))
  /\ (0 + 512 + 5 <= Z.of_nat (length Samples.gnu_archive) -> Z.of_nat (length payload) = 5).
Proof.
  apply (C2_get_file_bytes_reads_what_remains Samples.gnu_archive {[ "data/a.txt" := 0 ]}
           _ "data/a.txt" 0 5).
  - reflexivity.
  - vm_compute. reflexivity.
  - lia.
  - reflexivity.
  - lia.
Defined.

(** The claim as stated fails on the sample cut after two payload bytes: the
    entry is indexed, its record has size 5, and [get_file_bytes] returns
    the two bytes that are left, with no error. *)
Lemma C2_truncated_payload_is_returned_short :
  exists data,
    Samples.index_of Samples.truncated_archive !! "data/a.txt" = Some 0
    /\ get_file_data Samples.truncated_archive 0 "data/a.txt" = Ok data
    /\ FileHeader.size data = VInt 5
    /\ get_file_bytes Samples.truncated_archive
         (Samples.index_of Samples.truncated_archive) data
       = Ok (list_byte_of_string "he").
Proof.
  destruct (get_file_data Samples.truncated_archive 0 "data/a.txt") as [data|e] eqn:H;
    [|vm_compute in H; discriminate].
  exists data. split; [vm_compute; reflexivity|]. split; [reflexivity|].
  vm_compute in H. injection H as <-. split; vm_compute; reflexivity.
Qed.

(** ** The scan *)

Lemma bytes_eqb_neq a b : bytes_eqb a b = false <-> a <> b.
Proof.
  rewrite <- bytes_eqb_eq. destruct (bytes_eqb a b); split; congruence.
Qed.

Section ScanProperties.

Variable to_ascii_digits : string -> list byte.

(** The four ways through the loop body. *)

Lemma body_eof archive st :
  pread archive (position st) _BLOCK_SIZE = [] ->
  get_names_body to_ascii_digits archive st = ([], Returned (file_to_position st)).
Proof.
  intros H. unfold get_names_body. rewrite H. cbn [bytes_eqb].
  by rewrite !orb_true_r.
Qed.

Lemma body_zero archive st :
  pread archive (position st) _BLOCK_SIZE = _NULL_BLOCK ->
  get_names_body to_ascii_digits archive st =
    if was_first_zero_block st then ([], Returned (file_to_position st))
    else ([], Running (mk_state (position st + 512) true (long_link_name st)
                         (file_to_position st))).
Proof.
  intros H. unfold get_names_body. rewrite H.
  replace (bytes_eqb _NULL_BLOCK _NULL_BLOCK) with true
    by (symmetry; by apply bytes_eqb_eq).
  replace (bytes_eqb _NULL_BLOCK []) with false by reflexivity.
  cbn [orb]. rewrite orb_false_r. reflexivity.
Qed.

Lemma body_long archive st :
  let block := pread archive (position st) _BLOCK_SIZE in
  let payload := pread archive (position st + length block) _BLOCK_SIZE in
  block <> _NULL_BLOCK -> block <> [] ->
  slice 156 157 block = ["L"%byte] ->
  get_names_body to_ascii_digits archive st =
    match decode (strip_nul payload) with
    | Ok name =>
        ([], Running (mk_state (position st + length block + length payload) false
                        (Some name) (file_to_position st)))
    | Raise e => ([], Raised e (file_to_position st))
    end.
Proof.
  intros block payload Hnull Hempty Htype. unfold get_names_body.
  fold block. apply bytes_eqb_neq in Hnull, Hempty. rewrite Hnull, Hempty.
  cbn [orb]. rewrite Htype. reflexivity.
Qed.

Lemma body_entry archive st name pending :
  let block := pread archive (position st) _BLOCK_SIZE in
  let index := <[name := Z.of_nat (position st + length block) - 512]> (file_to_position st) in
  block <> _NULL_BLOCK -> block <> [] ->
  slice 156 157 block <> ["L"%byte] ->
  resolve_name block (long_link_name st) = Ok (name, pending) ->
  exists c, get_names_body to_ascii_digits archive st = ([mk_event name index], c)
            /\ final_index c = index
            /\ forall st', c = Running st' ->
                 was_first_zero_block st' = false /\ long_link_name st' = pending
                 /\ exists k : Z, Z.of_nat (position st')
                                  = Z.of_nat (position st + length block) + k * 512.
Proof.
  intros block index Hnull Hempty Htype Hname. unfold get_names_body.
  fold block. apply bytes_eqb_neq in Hnull, Hempty, Htype.
  rewrite Hnull, Hempty, Htype, Hname. cbn [orb].
  change (Z.of_nat _BLOCK_SIZE) with 512. fold index.
  destruct (bind _ _) as [size|e]; [|eexists; split; [reflexivity|]; split; [done|]; done].
  destruct (_ <? 0) eqn:Hseek; [eexists; split; [reflexivity|]; split; [done|]; done|].
  eexists; split; [reflexivity|]. split; [done|].
  intros st' [= <-]. cbn [was_first_zero_block long_link_name position].
  split; [done|]. split; [done|].
  exists (ceil_div size 512). apply Z.ltb_ge in Hseek. rewrite Z2Nat.id; done.
Qed.

(** ** The loop *)

Lemma scan_S archive n st :
  scan to_ascii_digits archive (S n) st =
    match get_names_body to_ascii_digits archive st with
    | (evs, Running st') =>
        let r := scan to_ascii_digits archive n st' in
        mk_result (evs ++ events r) (S (iterations r)) (outcome r)
    | (evs, c) => mk_result evs 1 c
    end.
Proof. reflexivity. Qed.

(** A scan of [k + m] iterations is a scan of [k] followed, if the loop is
    still running, by a scan of [m] from the state reached. *)
Lemma scan_add archive k m st :
  scan to_ascii_digits archive (k + m) st =
    let r := scan to_ascii_digits archive k st in
    match outcome r with
    | Running st' =>
        let r' := scan to_ascii_digits archive m st' in
        mk_result (events r ++ events r') (iterations r + iterations r') (outcome r')
    | _ => r
    end.
Proof.
  revert st. induction k as [|k IH]; intros st.
  - cbn. by destruct (scan to_ascii_digits archive m st).
  - rewrite Nat.add_succ_l, !scan_S.
    destruct (get_names_body to_ascii_digits archive st) as [evs [st'| |]]; [|done..].
    rewrite IH. destruct (scan to_ascii_digits archive k st') as [evs' its [st''| |]];
      cbn [outcome events iterations]; [|done..].
    by rewrite app_assoc.
Qed.

Lemma body_yields_at_most_one archive st :
  (length (get_names_body to_ascii_digits archive st).1 <= 1)%nat.
Proof.
  unfold get_names_body.
  repeat match goal with
    | |- context [if ?b then _ else _] => destruct b
    | |- context [match ?x with _ => _ end] => destruct x
    end; cbn; lia.
Qed.

Lemma scan_iterations archive n st :
  (iterations (scan to_ascii_digits archive n st) <= n)%nat.
Proof.
  revert st. induction n as [|n IH]; intros st; [done|].
  rewrite scan_S.
  destruct (get_names_body to_ascii_digits archive st) as [evs [st'| |]];
    cbn [iterations]; [specialize (IH st')|..]; lia.
Qed.

Lemma scan_events_bound archive n st :
  (length (events (scan to_ascii_digits archive n st))
   <= iterations (scan to_ascii_digits archive n st))%nat.
Proof.
  revert st. induction n as [|n IH]; intros st; [done|].
  rewrite scan_S. pose proof (body_yields_at_most_one archive st) as Hone.
  destruct (get_names_body to_ascii_digits archive st) as [evs [st'| |]];
    cbn [iterations events fst] in *; [|lia..].
  rewrite length_app. specialize (IH st'). lia.
Qed.

(** ** Reads at block boundaries *)

Lemma pread_app_l l l' pos n :
  (pos + n <= length l)%nat -> pread (l ++ l') pos n = pread l pos n.
Proof.
  intros H. unfold pread. rewrite drop_app_le by lia.
  apply take_app_le. rewrite length_drop. lia.
Qed.

Lemma pread_beyond archive pos n :
  (length archive <= pos)%nat -> pread archive pos n = [].
Proof. intros H. unfold pread. rewrite drop_ge by done. by destruct n. Qed.

Lemma pread_full archive pos n :
  (pos + n <= length archive)%nat -> length (pread archive pos n) = n.
Proof. intros H. rewrite pread_length. lia. Qed.

Lemma pread_at_end l block :
  length block = 512%nat -> pread (l ++ block) (length l) _BLOCK_SIZE = block.
Proof.
  intros H. unfold pread. rewrite drop_app_length.
  apply take_ge. unfold _BLOCK_SIZE. lia.
Qed.

Lemma null_block_length : length _NULL_BLOCK = 512%nat.
Proof. apply length_replicate. Qed.

Lemma body_ext f1 f2 st :
  let block := pread f1 (position st) _BLOCK_SIZE in
  pread f2 (position st) _BLOCK_SIZE = block ->
  (block <> _NULL_BLOCK -> block <> [] ->
   pread f2 (position st + length block) _BLOCK_SIZE
   = pread f1 (position st + length block) _BLOCK_SIZE) ->
  get_names_body to_ascii_digits f2 st = get_names_body to_ascii_digits f1 st.
Proof.
  intros block Hblock Hpayload. unfold get_names_body. cbv zeta.
  rewrite Hblock. subst block.
  set (block := pread f1 (position st) _BLOCK_SIZE) in *.
  destruct (bytes_eqb block _NULL_BLOCK) eqn:Hnull; [done|].
  destruct (bytes_eqb block []) eqn:Hempty; [done|].
  apply bytes_eqb_neq in Hnull, Hempty. rewrite Hpayload by done. done.
Qed.

(** In a file made of whole blocks the scan stays on block boundaries. *)
Lemma body_aligned archive st evs st' :
  on_boundary (length archive) ->
  on_boundary (position st) ->
  get_names_body to_ascii_digits archive st = (evs, Running st') ->
  on_boundary (position st').
Proof.
  intros [blocks Hlen] [q Hpos] Hbody.
  destruct (le_lt_dec (length archive) (position st)) as [Hend|Hin].
  { rewrite body_eof in Hbody by (by apply pread_beyond). discriminate. }
  assert (length (pread archive (position st) _BLOCK_SIZE) = 512%nat) as Hfull
    by (apply pread_full; unfold _BLOCK_SIZE; lia).
  set (block := pread archive (position st) _BLOCK_SIZE) in *.
  destruct (decide (block = _NULL_BLOCK)) as [Hnull|Hnull].
  { rewrite body_zero in Hbody by done.
    destruct (was_first_zero_block st); [discriminate|]. injection Hbody as <- <-.
    exists (S q). cbn. lia. }
  assert (block <> []) as Hempty by (intros E; rewrite E in Hfull; discriminate).
  destruct (decide (slice 156 157 block = ["L"%byte])) as [Htype|Htype].
  { rewrite body_long in Hbody by done. fold block in Hbody. rewrite Hfull in Hbody.
    destruct (decode _); [|discriminate]. injection Hbody as <- <-.
    cbn [position]. rewrite pread_length. unfold _BLOCK_SIZE.
    destruct (le_lt_dec (length archive) (position st + 512)).
    - exists (S q). lia.
    - exists (S (S q)). lia. }
  destruct (resolve_name block (long_link_name st)) as [[name pending]|e] eqn:Hname.
  - destruct (body_entry archive st name pending) as (c & Hc & _ & Hrun);
      try done.
    rewrite Hc in Hbody. injection Hbody as <- ->.
    destruct (Hrun st' eq_refl) as (_ & _ & k & Hk). fold block in Hk.
    rewrite Hfull in Hk. exists (Z.to_nat (Z.of_nat q + 1 + k)). lia.
  - unfold get_names_body in Hbody. fold block in Hbody.
    apply bytes_eqb_neq in Hnull, Hempty, Htype.
    rewrite Hnull, Hempty, Htype, Hname in Hbody. discriminate.
Qed.

(** ** The end of the archive *)

Lemma scan_past_end archive n st :
  (length archive <= position st)%nat ->
  nothing_more (scan to_ascii_digits archive n st) (file_to_position st).
Proof.
  intros H. destruct n; [done|].
  rewrite scan_S, body_eof by (by apply pread_beyond). done.
Qed.

Lemma scan_last_zero_block l n st :
  position st = length l ->
  nothing_more (scan to_ascii_digits (l ++ _NULL_BLOCK) n st) (file_to_position st).
Proof.
  intros H. destruct n; [done|].
  rewrite scan_S, body_zero by (rewrite H; apply pread_at_end, null_block_length).
  destruct (was_first_zero_block st); [done|].
  destruct (scan_past_end (l ++ _NULL_BLOCK) n
              (mk_state (position st + 512) true (long_link_name st) (file_to_position st)))
    as (He & Hi & Hr).
  { cbn [position]. rewrite length_app, null_block_length. lia. }
  unfold nothing_more. cbn [events outcome]. by rewrite He.
Qed.

Lemma body_flag_irrelevant archive pos flag pending index :
  pread archive pos _BLOCK_SIZE <> _NULL_BLOCK ->
  pread archive pos _BLOCK_SIZE <> [] ->
  get_names_body to_ascii_digits archive (mk_state pos flag pending index)
  = get_names_body to_ascii_digits archive (mk_state pos false pending index).
Proof.
  intros Hnull Hempty. unfold get_names_body. cbn [position].
  apply bytes_eqb_neq in Hnull, Hempty. by rewrite Hnull, Hempty.
Qed.

(** A zero block appended to an archive that ends in a zero block changes
    nothing of the listing. *)
Lemma trailing_zero_block archive blocks n st :
  length archive = (512 * blocks)%nat ->
  on_boundary (position st) ->
  same_listing (scan to_ascii_digits (archive ++ _NULL_BLOCK) n st)
               (scan to_ascii_digits ((archive ++ _NULL_BLOCK) ++ _NULL_BLOCK) n st).
Proof.
  intros Hlen. revert st. induction n as [|n IH]; intros st Hpos; [done|].
  set (f1 := archive ++ _NULL_BLOCK) in *.
  assert (length f1 = (512 * S blocks)%nat) as Hlen1
    by (unfold f1; rewrite length_app, null_block_length; lia).
  destruct (le_lt_dec (length f1) (position st)) as [Hend|Hin].
  - destruct (scan_past_end f1 (S n) st Hend) as (He1 & Hi1 & Hr1).
    assert (nothing_more (scan to_ascii_digits (f1 ++ _NULL_BLOCK) (S n) st)
              (file_to_position st)) as (He2 & Hi2 & Hr2).
    { destruct (decide (position st = length f1)) as [Heq|Hne].
      - by apply scan_last_zero_block.
      - apply scan_past_end. rewrite length_app, null_block_length.
        destruct Hpos as [q Hq]. lia. }
    unfold same_listing. by rewrite He1, He2, Hi1, Hi2, Hr1, Hr2.
  - assert (position st + 512 <= length f1)%nat as Hblock
      by (destruct Hpos as [q Hq]; lia).
    assert (get_names_body to_ascii_digits (f1 ++ _NULL_BLOCK) st
            = get_names_body to_ascii_digits f1 st) as Hbody.
    { apply body_ext.
      - by apply pread_app_l.
      - intros Hnull _. rewrite pread_full by done.
        apply pread_app_l.
        destruct (decide (position st = length archive)) as [Heq|Hne].
        + exfalso. apply Hnull. unfold f1. rewrite Heq.
          apply pread_at_end, null_block_length.
        + destruct Hpos as [q Hq]. unfold _BLOCK_SIZE. lia. }
    rewrite !scan_S, Hbody.
    destruct (get_names_body to_ascii_digits f1 st) as [evs [st'| |]] eqn:Hstep; [|done..].
    destruct (IH st') as (He & Hi & Hr).
    { apply (body_aligned f1 st evs st'); [by exists (S blocks)|done|done]. }
    unfold same_listing. cbn [events outcome]. by rewrite He, Hi, Hr.
Qed.

(** ** The dictionary and the names *)

Lemma body_index_domain archive st evs c t :
  get_names_body to_ascii_digits archive st = (evs, c) ->
  is_Some (final_index c !! t) ->
  is_Some (file_to_position st !! t) \/ t ∈ map ev_name evs.
Proof.
  unfold get_names_body. cbv zeta.
  repeat match goal with
    | |- context [if ?b then _ else _] => destruct b
    | |- context [match ?x with _ => _ end] => destruct x
    end;
    intros [= <- <-]; cbn [final_index file_to_position map ev_name]; auto;
    (intros Hsome;
     match goal with
     | H : is_Some (<[?name := _]> _ !! t) |- _ =>
         destruct (decide (name = t)) as [->|Hne];
         [right; apply list_elem_of_singleton; reflexivity
         |left; by rewrite lookup_insert_ne in H]
     end).
Qed.

Lemma scan_index_domain archive n st t :
  is_Some (final_index (outcome (scan to_ascii_digits archive n st)) !! t) ->
  is_Some (file_to_position st !! t) \/ t ∈ names (scan to_ascii_digits archive n st).
Proof.
  revert st. induction n as [|n IH]; intros st; [by left|].
  rewrite scan_S.
  destruct (get_names_body to_ascii_digits archive st) as [evs c] eqn:Hbody.
  pose proof (body_index_domain archive st evs c t Hbody) as Hstep.
  unfold names in *.
  destruct c as [st'| |]; cbn [outcome events final_index] in *; [|by auto..].
  intros Hsome. rewrite map_app, elem_of_app.
  destruct (IH st' Hsome) as [Hin|Hin]; [|by auto].
  destruct (Hstep Hin); auto.
Qed.

Lemma pread_drop_app archive pos block rest :
  drop pos archive = block ++ rest ->
  length block = 512%nat ->
  pread archive pos _BLOCK_SIZE = block /\ drop (pos + 512) archive = rest.
Proof.
  intros Hdrop Hlen. unfold pread. rewrite <- drop_drop, Hdrop. split.
  - apply take_app_length'. by rewrite Hlen.
  - apply drop_app_length'. by rewrite Hlen.
Qed.

Lemma long_block_not_null block :
  slice 156 157 block = ["L"%byte] -> block <> _NULL_BLOCK /\ block <> [].
Proof. intros H. split; intros ->; vm_compute in H; discriminate. Qed.

(** The two iterations that read a long-name block, its payload and the
    header that follows. *)
Lemma long_name_iterations archive n st lblock payload hdr rest pending name left :
  drop (position st) archive = lblock ++ payload ++ hdr ++ rest ->
  length lblock = 512%nat -> length payload = 512%nat -> length hdr = 512%nat ->
  slice 156 157 lblock = ["L"%byte] ->
  decode (strip_nul payload) = Ok pending ->
  hdr <> _NULL_BLOCK ->
  slice 156 157 hdr <> ["L"%byte] ->
  resolve_name hdr (Some pending) = Ok (name, left) ->
  exists later,
    events (scan to_ascii_digits archive (S (S n)) st)
    = mk_event name (<[name := Z.of_nat (position st) + 1024]> (file_to_position st)) :: later.
Proof.
  intros Hdrop Hl Hp Hh Htype Hdecode Hnull Hnotlong Hname.
  destruct (pread_drop_app _ _ _ _ Hdrop Hl) as [Hb1 Hdrop1].
  destruct (pread_drop_app _ _ _ _ Hdrop1 Hp) as [Hb2 Hdrop2].
  destruct (pread_drop_app _ _ _ _ Hdrop2 Hh) as [Hb3 _].
  destruct (long_block_not_null _ Htype) as [Hn1 He1].
  rewrite scan_S, body_long; rewrite Hb1; try done.
  rewrite Hl, Hb2, Hdecode, Hp.
  assert (hdr <> []) as He3 by (intros ->; discriminate).
  pose proof (body_entry archive
                (mk_state (position st + 512 + 512) false (Some pending)
                   (file_to_position st)) name left) as Hentry.
  cbn [position long_link_name file_to_position] in Hentry.
  rewrite Hb3, Hh in Hentry.
  destruct Hentry as (c & Hc & _ & _); try done.
  cbn [app events]. rewrite scan_S, Hc.
  replace (Z.of_nat (position st + 512 + 512 + 512) - 512)
    with (Z.of_nat (position st) + 1024) by lia.
  destruct c; cbn [events app]; eauto.
Qed.

Lemma get_names_unfold archive index :
  get_names to_ascii_digits archive index
  = scan to_ascii_digits archive 1000 (initial_state index).
Proof. reflexivity. Qed.

(** What the scan yields once it has reached, with two iterations left, a
    long-name block, its payload and the header after it. *)
Lemma scan_reaches_long_name archive n k st0 st lblock payload hdr rest pending name left :
  (k + 2 <= n)%nat ->
  outcome (scan to_ascii_digits archive k st0) = Running st ->
  drop (position st) archive = lblock ++ payload ++ hdr ++ rest ->
  length lblock = 512%nat -> length payload = 512%nat -> length hdr = 512%nat ->
  slice 156 157 lblock = ["L"%byte] ->
  decode (strip_nul payload) = Ok pending ->
  hdr <> _NULL_BLOCK ->
  slice 156 157 hdr <> ["L"%byte] ->
  resolve_name hdr (Some pending) = Ok (name, left) ->
  exists later,
    events (scan to_ascii_digits archive n st0)
    = events (scan to_ascii_digits archive k st0)
      ++ mk_event name (<[name := Z.of_nat (position st) + 1024]> (file_to_position st))
         :: later.
Proof.
  intros Hk Hreach Hdrop Hl Hp Hh Htype Hdecode Hnull Hnotlong Hname.
  replace n with (k + S (S (n - k - 2)))%nat by lia.
  rewrite scan_add. cbv zeta. rewrite Hreach. cbn [events].
  destruct (long_name_iterations archive (n - k - 2) st lblock payload hdr rest
              pending name left) as [later Hlater]; try assumption.
  rewrite Hlater. by exists later.
Qed.

(** A name that was not in the dictionary and is not yielded is not in the
    dictionary after the scan: [file_stat] fails in the lookup. *)
Lemma unlisted_name_is_unknown archive n st t :
  file_to_position st !! t = None ->
  t ∉ names (scan to_ascii_digits archive n st) ->
  file_stat archive (final_index (outcome (scan to_ascii_digits archive n st))) t
  = Raise (KeyError (KStr t)).
Proof.
  intros Hfresh Hnot. unfold file_stat, position_getitem.
  destruct (final_index (outcome (scan to_ascii_digits archive n st)) !! t)
    as [offset|] eqn:Hlookup; [|reflexivity].
  exfalso. destruct (scan_index_domain archive n st t) as [Hin|Hin].
  - rewrite Hlookup. by eexists.
  - rewrite Hfresh in Hin. by destruct Hin.
  - contradiction.
Qed.

Lemma decode_null_block : decode (strip_nul _NULL_BLOCK) = Ok EmptyString.
Proof. vm_compute. reflexivity. Qed.

(** ** Claims about the scan *)

(** C7: [get_names] ends for every archive, after at most 1000 iterations
    of its loop, each of which yields at most one name.  A scan that is
    allowed more iterations yields the same names first; what it yields after
    its thousandth iteration, from the state where the cap stops
    [get_names], is never yielded by [get_names]. *)
Theorem C7_scan_stops_at_the_cap (archive : list byte) (index : gmap string Z) :
  let r := get_names to_ascii_digits archive index in
  (iterations r <= 1000)%nat
  /\ (length (events r) <= iterations r)%nat
  /\ forall more : nat,
       let longer := scan to_ascii_digits archive (1000 + more) (initial_state index) in
       match outcome r with
       | Running st =>
           events longer = events r ++ events (scan to_ascii_digits archive more st)
       | _ => longer = r
       end.
Proof.
  cbv zeta. rewrite get_names_unfold.
  split; [apply scan_iterations|]. split; [apply scan_events_bound|].
  intros more. rewrite scan_add. cbv zeta.
  destruct (scan to_ascii_digits archive 1000 (initial_state index)) as [evs its [st| |]];
    cbn [outcome events]; reflexivity.
Qed.

(** C6: the scan ends at the physical end of the file and at the second of
    two consecutive zero blocks; past a single zero block that a block with
    content follows it goes on as if from that block; and an archive of whole
    blocks that ends in one zero block is listed as the same archive with a
    second zero block after it. *)
Theorem C6_end_of_archive :
  (forall archive n st,
      (length archive <= position st)%nat ->
      scan to_ascii_digits archive (S n) st = mk_result [] 1 (Returned (file_to_position st)))
  /\ (forall archive n st,
        pread archive (position st) _BLOCK_SIZE = _NULL_BLOCK ->
        pread archive (position st + 512) _BLOCK_SIZE = _NULL_BLOCK ->
        events (scan to_ascii_digits archive (S (S n)) st) = []
        /\ outcome (scan to_ascii_digits archive (S (S n)) st)
           = Returned (file_to_position st))
  /\ (forall archive n st,
        was_first_zero_block st = false ->
        pread archive (position st) _BLOCK_SIZE = _NULL_BLOCK ->
        pread archive (position st + 512) _BLOCK_SIZE <> _NULL_BLOCK ->
        pread archive (position st + 512) _BLOCK_SIZE <> [] ->
        scan to_ascii_digits archive (S (S n)) st
        = let r := scan to_ascii_digits archive (S n)
                     (mk_state (position st + 512) false (long_link_name st)
                        (file_to_position st)) in
          mk_result (events r) (S (iterations r)) (outcome r))
  /\ (forall archive blocks index,
        length archive = (512 * blocks)%nat ->
        same_listing (get_names to_ascii_digits (archive ++ _NULL_BLOCK) index)
                     (get_names to_ascii_digits (archive ++ _NULL_BLOCK ++ _NULL_BLOCK) index)).
Proof.
  split; [|split; [|split]].
  - intros archive n st Hend. by rewrite scan_S, body_eof by (by apply pread_beyond).
  - intros archive n st Hfirst Hsecond. rewrite scan_S, body_zero by done.
    destruct (was_first_zero_block st); [done|].
    cbn [events outcome app]. by rewrite scan_S, body_zero by done.
  - intros archive n st Hflag Hzero Hnull Hempty.
    rewrite scan_S, body_zero, Hflag by done. cbv zeta. cbn [app].
    by rewrite !scan_S, body_flag_irrelevant by done.
  - intros archive blocks index Hlen. rewrite (app_assoc archive).
    apply (trailing_zero_block archive blocks); [done|]. by exists 0%nat.
Qed.

(** C10: when the scan, with two iterations left, comes to a long-name block
    whose payload block is all NUL, and a header block that is neither a zero
    block nor a long-name block follows, the next name it yields is the name
    field of that header, indexed at the offset of the header. *)
Theorem C10_empty_long_name_is_ignored
    (archive : list byte) (index : gmap string Z) (k : nat) (st : scan_state)
    (lblock payload hdr rest : list byte) (name : string) :
  (k + 2 <= 1000)%nat ->
  outcome (scan to_ascii_digits archive k (initial_state index)) = Running st ->
  drop (position st) archive = lblock ++ payload ++ hdr ++ rest ->
  length lblock = 512%nat ->
  length hdr = 512%nat ->
  slice 156 157 lblock = ["L"%byte] ->
  payload = _NULL_BLOCK ->
  hdr <> _NULL_BLOCK ->
  slice 156 157 hdr <> ["L"%byte] ->
  decode (strip_nul (slice 0 100 hdr)) = Ok name ->
  exists later,
    events (get_names to_ascii_digits archive index)
    = events (scan to_ascii_digits archive k (initial_state index))
      ++ mk_event name (<[name := Z.of_nat (position st) + 1024]> (file_to_position st))
         :: later.
Proof.
  intros Hk Hreach Hdrop Hl Hh Htype Hpayload Hnull Hnotlong Hname.
  rewrite get_names_unfold.
  apply (scan_reaches_long_name archive 1000 k (initial_state index) st
           lblock payload hdr rest EmptyString name (Some EmptyString)); try assumption.
  - rewrite Hpayload. apply null_block_length.
  - rewrite Hpayload. apply decode_null_block.
  - unfold resolve_name. cbn [str_truthy]. rewrite Hname. reflexivity.
Qed.

(** C5 (as amended): when the scan, with two iterations left, comes to a
    long-name block whose payload block, NUL stripped, decodes to a text that
    is not empty, and a header block that is neither a zero block nor a
    long-name block follows, the next name it yields is that text, indexed
    at the offset of the header; the name field of the header is not read.
    After the scan [file_stat] fails with the [KeyError] of the dictionary on
    every other name that no other entry was yielded under and that was not
    in the dictionary before. *)
Theorem C5_long_name_replaces_the_name_field
    (archive : list byte) (index : gmap string Z) (k : nat) (st : scan_state)
    (lblock payload hdr rest : list byte) (long : string) :
  (k + 2 <= 1000)%nat ->
  outcome (scan to_ascii_digits archive k (initial_state index)) = Running st ->
  drop (position st) archive = lblock ++ payload ++ hdr ++ rest ->
  length lblock = 512%nat ->
  length payload = 512%nat ->
  length hdr = 512%nat ->
  slice 156 157 lblock = ["L"%byte] ->
  decode (strip_nul payload) = Ok long ->
  long <> EmptyString ->
  hdr <> _NULL_BLOCK ->
  slice 156 157 hdr <> ["L"%byte] ->
  exists later,
    events (get_names to_ascii_digits archive index)
    = events (scan to_ascii_digits archive k (initial_state index))
      ++ mk_event long (<[long := Z.of_nat (position st) + 1024]> (file_to_position st))
         :: later
    /\ forall truncated,
         truncated <> long ->
         index !! truncated = None ->
         truncated ∉ names (scan to_ascii_digits archive k (initial_state index)) ->
         truncated ∉ map ev_name later ->
         file_stat archive
           (final_index (outcome (get_names to_ascii_digits archive index))) truncated
         = Raise (KeyError (KStr truncated)).
Proof.
  intros Hk Hreach Hdrop Hl Hp Hh Htype Hdecode Hlong Hnull Hnotlong.
  rewrite get_names_unfold.
  destruct (scan_reaches_long_name archive 1000 k (initial_state index) st
              lblock payload hdr rest long long None) as [later Hevents];
    try assumption.
  { unfold resolve_name. destruct long; [contradiction|reflexivity]. }
  exists later. split; [exact Hevents|].
  intros truncated Hne Hfresh Hbefore Hafter.
  apply unlisted_name_is_unknown; [exact Hfresh|].
  unfold names in *. rewrite Hevents, map_app, elem_of_app.
  cbn [map ev_name]. rewrite elem_of_cons. intros [?|[?|?]]; contradiction.
Qed.

End ScanProperties.

(** ** The claims about the scan on the samples *)

Lemma C10_empty_long_name_witness :
  exists later,
    events (get_names Samples.no_unicode Samples.empty_long_name_archive ∅)
    = events (scan Samples.no_unicode Samples.empty_long_name_archive 0 (initial_state ∅))
      ++ mk_event "short.txt"
           (<["short.txt" := Z.of_nat (position (initial_state ∅)) + 1024]>
              (file_to_position (initial_state ∅)))
         :: later.
Proof.
  apply (C10_empty_long_name_is_ignored Samples.no_unicode
           Samples.empty_long_name_archive ∅ 0 (initial_state ∅)
           Samples.long_block _NULL_BLOCK Samples.short_header
           (Samples.data_block "hello" ++ _NULL_BLOCK ++ _NULL_BLOCK) "short.txt").
  - lia.
  - reflexivity.
  - reflexivity.
  - vm_compute. reflexivity.
  - vm_compute. reflexivity.
  - vm_compute. reflexivity.
  - reflexivity.
  - apply bytes_eqb_neq. vm_compute. reflexivity.
  - apply bytes_eqb_neq. vm_compute. reflexivity.
  - vm_compute. reflexivity.
Defined.

Lemma C5_long_name_witness :
  exists later,
    events (get_names Samples.no_unicode Samples.long_name_archive ∅)
    = events (scan Samples.no_unicode Samples.long_name_archive 0 (initial_state ∅))
      ++ mk_event Samples.long_name
           (<[Samples.long_name := Z.of_nat (position (initial_state ∅)) + 1024]>
              (file_to_position (initial_state ∅)))
         :: later
    /\ forall truncated,
         truncated <> Samples.long_name ->
         (∅ : gmap string Z) !! truncated = None ->
         truncated ∉ names (scan Samples.no_unicode Samples.long_name_archive 0
                              (initial_state ∅)) ->
         truncated ∉ map ev_name later ->
         file_stat Samples.long_name_archive
           (final_index (outcome (get_names Samples.no_unicode
                                    Samples.long_name_archive ∅))) truncated
         = Raise (KeyError (KStr truncated)).
Proof.
  apply (C5_long_name_replaces_the_name_field Samples.no_unicode
           Samples.long_name_archive ∅ 0 (initial_state ∅)
           Samples.long_block (Samples.data_block Samples.long_name)
           Samples.truncated_header
           (Samples.data_block "hello" ++ _NULL_BLOCK ++ _NULL_BLOCK) Samples.long_name).
  - lia.
  - reflexivity.
  - reflexivity.
  - vm_compute. reflexivity.
  - vm_compute. reflexivity.
  - vm_compute. reflexivity.
  - vm_compute. reflexivity.
  - vm_compute. reflexivity.
  - vm_compute. discriminate.
  - apply bytes_eqb_neq. vm_compute. reflexivity.
  - apply bytes_eqb_neq. vm_compute. reflexivity.
Defined.

(** On the long-name sample the entry is listed under its 108 bytes, and the
    100 bytes of the name field are unknown to [file_stat]. *)
Example long_name_listing :
  names (get_names Samples.no_unicode Samples.long_name_archive ∅) = [Samples.long_name]
  /\ Samples.index_of Samples.long_name_archive !! Samples.long_name = Some 1024
  /\ file_stat Samples.long_name_archive (Samples.index_of Samples.long_name_archive)
       Samples.truncated_name
     = Raise (KeyError (KStr Samples.truncated_name)).
Proof. vm_compute. auto. Qed.

(** The claim as stated fails where the payload block of the long-name block
    is all NUL: the long name is the empty text, the entry is listed and
    indexed under the name field of its header, and [file_stat] answers for
    that name. *)
Lemma C5_empty_long_name_is_not_used :
  slice 156 157 (pread Samples.empty_long_name_archive 0 _BLOCK_SIZE) = ["L"%byte]
  /\ decode (strip_nul (pread Samples.empty_long_name_archive 512 _BLOCK_SIZE))
     = Ok EmptyString
  /\ decode (strip_nul (slice 0 100 (pread Samples.empty_long_name_archive 1024 _BLOCK_SIZE)))
     = Ok "short.txt"
  /\ names (get_names Samples.no_unicode Samples.empty_long_name_archive ∅) = ["short.txt"]
  /\ Samples.index_of Samples.empty_long_name_archive !! EmptyString = None
  /\ Samples.index_of Samples.empty_long_name_archive !! "short.txt" = Some 1024
  /\ exists info,
       file_stat Samples.empty_long_name_archive
         (Samples.index_of Samples.empty_long_name_archive) "short.txt" = Ok info.
Proof.
  repeat (split; [vm_compute; reflexivity|]).
  destruct (file_stat Samples.empty_long_name_archive
              (Samples.index_of Samples.empty_long_name_archive) "short.txt")
    as [info|e] eqn:H; [by exists info|vm_compute in H; discriminate].
Qed.

(** Nor does the lookup fail when the first 100 bytes name another entry:
    here the directory that holds the file. *)
Example truncated_name_of_another_entry :
  names (get_names Samples.no_unicode Samples.directory_archive ∅)
  = [Samples.truncated_name; Samples.long_name]
  /\ exists info,
       file_stat Samples.directory_archive (Samples.index_of Samples.directory_archive)
         Samples.truncated_name = Ok info
       /\ info !! 1%nat = Some [VStr "Type"; VStr "Directory"].
Proof.
  split; [vm_compute; reflexivity|].
  assert (match file_stat Samples.directory_archive
                  (Samples.index_of Samples.directory_archive) Samples.truncated_name with
          | Ok info => info !! 1%nat
          | Raise _ => None
          end = Some [VStr "Type"; VStr "Directory"]) as H by (vm_compute; reflexivity).
  destruct (file_stat Samples.directory_archive (Samples.index_of Samples.directory_archive)
              Samples.truncated_name) as [info|e]; [|discriminate].
  by exists info.
Qed.

Lemma C6_end_of_archive_witness :
  scan Samples.no_unicode Samples.gnu_archive 1 (mk_state 2048 false None ∅)
  = mk_result [] 1 (Returned ∅)
  /\ (events (scan Samples.no_unicode Samples.gnu_archive 2 (mk_state 1024 false None ∅)) = []
      /\ outcome (scan Samples.no_unicode Samples.gnu_archive 2 (mk_state 1024 false None ∅))
         = Returned ∅)
  /\ scan Samples.no_unicode Samples.gap_archive 2 (initial_state ∅)
     = (let r := scan Samples.no_unicode Samples.gap_archive 1
                   (mk_state (0 + 512) false None ∅) in
        mk_result (events r) (S (iterations r)) (outcome r))
  /\ same_listing
       (get_names Samples.no_unicode
          ((Samples.gnu_header ++ Samples.data_block "hello") ++ _NULL_BLOCK) ∅)
       (get_names Samples.no_unicode
          ((Samples.gnu_header ++ Samples.data_block "hello") ++ _NULL_BLOCK ++ _NULL_BLOCK) ∅).
Proof.
  destruct (C6_end_of_archive Samples.no_unicode) as (Hend & Htwo & Hone & Hsame).
  split; [|split; [|split]].
  - apply (Hend Samples.gnu_archive 0%nat (mk_state 2048 false None ∅)).
    vm_compute. lia.
  - apply (Htwo Samples.gnu_archive 0%nat (mk_state 1024 false None ∅)).
    + vm_compute. reflexivity.
    + vm_compute. reflexivity.
  - apply (Hone Samples.gap_archive 0%nat (initial_state ∅)).
    + reflexivity.
    + vm_compute. reflexivity.
    + apply bytes_eqb_neq. vm_compute. reflexivity.
    + apply bytes_eqb_neq. vm_compute. reflexivity.
  - apply (Hsame (Samples.gnu_header ++ Samples.data_block "hello") 2%nat ∅).
    vm_compute. reflexivity.
Defined.

(** The sample is listed alike with one and with two closing zero blocks. *)
Example closing_zero_blocks :
  names (get_names Samples.no_unicode
           ((Samples.gnu_header ++ Samples.data_block "hello") ++ _NULL_BLOCK) ∅)
  = ["data/a.txt"]
  /\ names (get_names Samples.no_unicode Samples.gnu_archive ∅) = ["data/a.txt"].
Proof. vm_compute. auto. Qed.

(** ** Extraction *)

Lemma get_file_bytes_Ok archive index data name offset size :
  FileHeader.file_name data = VStr name ->
  index !! name = Some offset ->
  0 <= offset ->
  FileHeader.size data = VInt size ->
  0 <= size ->
  get_file_bytes archive index data
  = Ok (pread archive (Z.to_nat (offset + 512)) (Z.to_nat size)).
Proof.
  intros Hname Hidx Hoff Hsize Hnonneg.
  unfold get_file_bytes, position_getitem. rewrite Hname, Hidx, Hsize.
  cbn [of_option bind read]. change (Z.of_nat _BLOCK_SIZE) with 512.
  destruct (Z.ltb_spec (offset + 512) 0); [lia|].
  destruct (Z.eqb_spec size (-1)); [lia|].
  destruct (Z.ltb_spec size 0); [lia|]. reflexivity.
Qed.

(** C9: when the name just yielded is indexed at a header that decodes to a
    regular file of a size that is not negative, and the destination already
    holds a file at the path of the entry, the loop body of [extract] writes
    the payload over that file and raises nothing, and the loop goes on with
    the names that follow. *)
Theorem C9_existing_file_is_overwritten
    (archive : list byte) (dest : string) (ev : event) (evs : list event)
    (fs : gmap string node) (start : Z) (data : FileHeader.t)
    (old : list byte) (size : Z) :
  ev_index ev !! ev_name ev = Some start ->
  get_file_data archive start (ev_name ev) = Ok data ->
  FileHeader.file_type data = VStr "Regular file" ->
  FileHeader.size data = VInt size ->
  0 <= size ->
  fs !! (dest ++ "/" ++ ev_name ev)%string = Some (File old) ->
  let path := (dest ++ "/" ++ ev_name ev)%string in
  let payload := pread archive (Z.to_nat (start + 512)) (Z.to_nat size) in
  extract_entry archive dest ev fs = (<[path := File payload]> fs, None)
  /\ extract_loop archive dest (ev :: evs) fs
     = extract_loop archive dest evs (<[path := File payload]> fs).
Proof.
  intros Hidx Hdata Htype Hsize Hnonneg Hold path payload. fold path in Hold.
  assert (extract_entry archive dest ev fs = (<[path := File payload]> fs, None)) as Hentry.
  { unfold extract_entry, position_getitem. rewrite Hidx. cbn [of_option bind].
    rewrite Hdata.
    destruct (get_file_data_Ok _ _ _ _ Hdata)
      as (Hstart & _ & _ & ? & ? & ? & ? & ? & ? & _ & _ & _ & Hname & _).
    rewrite Hname, Htype. fold path.
    replace (is_str (VStr "Regular file") "Directory") with false by reflexivity.
    replace (is_str (VStr "Regular file") "Regular file") with true by reflexivity.
    assert (path_exists fs path = true) as ->
      by (unfold path_exists; apply bool_decide_eq_true; by rewrite Hold).
    cbn [negb]. unfold write_payload. rewrite Hold.
    by rewrite (get_file_bytes_Ok archive (ev_index ev) data (ev_name ev) start size). }
  split; [exact Hentry|]. cbn [extract_loop]. by rewrite Hentry.
Qed.

Lemma C9_existing_file_witness :
  let ev := mk_event "data/a.txt" {[ "data/a.txt" := 0 ]} in
  let fs : gmap string node := {[ "out/data/a.txt" := File (list_byte_of_string "old") ]} in
  let path := ("out" ++ "/" ++ ev_name ev)%string in
  let payload := pread Samples.gnu_archive (Z.to_nat (0 + 512)) (Z.to_nat 5) in
  extract_entry Samples.gnu_archive "out" ev fs = (<[path := File payload]> fs, None)
  /\ extract_loop Samples.gnu_archive "out" (ev :: []) fs
     = extract_loop Samples.gnu_archive "out" [] (<[path := File payload]> fs).
Proof.
  intros ev fs.
  apply (C9_existing_file_is_overwritten Samples.gnu_archive "out" ev [] fs 0
           (FileHeader.mk (VStr "data/a.txt") (VInt 420) (VInt 1000) (VInt 1000) (VInt 5)
              (VDatetime 1402433619) (VStr "005492") (VStr "Regular file") (VStr EmptyString)
              (VStr "ustar ") (VStr " ") (VStr "victor") (VStr "victor")
              (VStr EmptyString) (VStr EmptyString) (VStr EmptyString) (VStr EmptyString))
           (list_byte_of_string "old") 5).
  - vm_compute. reflexivity.
  - vm_compute. reflexivity.
  - reflexivity.
  - reflexivity.
  - lia.
  - vm_compute. reflexivity.
Defined.

(** The whole of [extract] on the sample, into a destination that holds an
    older file of the same name. *)
Example extract_over_an_older_file :
  let fs : gmap string node := {[ "out/data/a.txt" := File (list_byte_of_string "old") ]} in
  (extract Samples.no_unicode Samples.gnu_archive ∅ "out" fs).1 !! "out/data/a.txt"
  = Some (File (list_byte_of_string "hello"))
  /\ (extract Samples.no_unicode Samples.gnu_archive ∅ "out" fs).2 = None.
Proof. vm_compute. auto. Qed.

(** * Further properties of the scan *)

Section ScanInvariants.

Variable to_ascii_digits : string -> list byte.

(** An iteration leaves the dictionary alone or makes one assignment, of the
    name it yields to the offset of the block it has read. *)
Lemma body_shape archive st evs c :
  get_names_body to_ascii_digits archive st = (evs, c) ->
  (evs = [] /\ final_index c = file_to_position st)
  \/ exists name,
       let offset := Z.of_nat (position st + length (pread archive (position st) _BLOCK_SIZE))
                     - 512 in
       evs = [mk_event name (<[name := offset]> (file_to_position st))]
       /\ final_index c = <[name := offset]> (file_to_position st).
Proof.
  unfold get_names_body. cbv zeta. change (Z.of_nat _BLOCK_SIZE) with 512.
  repeat match goal with
    | |- context [if ?b then _ else _] => destruct b
    | |- context [match ?x with _ => _ end] => destruct x
    end;
    intros [= <- <-]; cbn [final_index file_to_position]; eauto.
Qed.

Lemma scan_offsets_S archive n st :
  offsets (scan to_ascii_digits archive (S n) st)
  = match get_names_body to_ascii_digits archive st with
    | (evs, Running st') =>
        offsets (mk_result evs 0 (Running st')) ++ offsets (scan to_ascii_digits archive n st')
    | (evs, c) => offsets (mk_result evs 0 c)
    end.
Proof.
  rewrite scan_S. destruct (get_names_body _ _ _) as [evs [st'| |]]; try reflexivity.
  unfold offsets. cbn [events]. by rewrite map_app.
Qed.

(** The dictionaries of the events are those after each assignment, and the
    dictionary the scan ends with is the one after the last. *)
Lemma scan_records archive n st :
  map ev_index (events (scan to_ascii_digits archive n st))
  = snapshots (file_to_position st) (offsets (scan to_ascii_digits archive n st))
  /\ final_index (outcome (scan to_ascii_digits archive n st))
     = record_all (file_to_position st) (offsets (scan to_ascii_digits archive n st)).
Proof.
  revert st. induction n as [|n IH]; intros st; [done|].
  rewrite scan_offsets_S, scan_S.
  destruct (get_names_body to_ascii_digits archive st) as [evs c] eqn:Hbody.
  destruct (body_shape _ _ _ _ Hbody) as [[-> Hc]|(name & -> & Hc)].
  - destruct c as [st'| |]; cbn [events outcome app offsets map final_index] in *;
      [|by rewrite Hc..].
    destruct (IH st') as [He Hf]. by rewrite He, Hf, Hc.
  - set (offset := Z.of_nat _ - 512) in *.
    assert (offsets (mk_result [mk_event name (<[name := offset]> (file_to_position st))] 0 c)
            = [(name, offset)]) as Hone.
    { unfold offsets. cbn. by rewrite lookup_insert_eq. }
    destruct c as [st'| |]; rewrite Hone;
      cbn [events outcome app map ev_index final_index snapshots record_all foldl fst snd] in *;
      [|by rewrite Hc..].
    destruct (IH st') as [He Hf]. rewrite He, Hf, Hc. done.
Qed.

Lemma names_offsets r : names r = map fst (offsets r).
Proof. unfold names, offsets. rewrite map_map. reflexivity. Qed.

(** Last assignment wins. *)
Lemma last_offset_acc name ys acc :
  foldl (fun acc y => if decide (y.1 = name) then Some y.2 else acc) acc ys
  = match last_offset name ys with
    | Some o => Some o
    | None => acc
    end.
Proof.
  unfold last_offset. revert acc. induction ys as [|y ys IH]; intros acc; [done|].
  cbn [foldl]. rewrite IH. rewrite (IH (if decide (y.1 = name) then Some y.2 else None)).
  destruct (foldl _ None ys); [done|]. by destruct (decide (y.1 = name)).
Qed.

Lemma record_all_lookup index ys name :
  record_all index ys !! name
  = match last_offset name ys with
    | Some o => Some o
    | None => index !! name
    end.
Proof.
  unfold record_all. revert index. induction ys as [|y ys IH]; intros index; [done|].
  cbn [foldl]. rewrite IH. unfold last_offset at 2. cbn [foldl].
  rewrite last_offset_acc. destruct (last_offset name ys); [done|].
  destruct (decide (y.1 = name)) as [<-|Hne].
  - by rewrite lookup_insert_eq.
  - by rewrite lookup_insert_ne.
Qed.

Lemma record_all_twice index ys :
  record_all (record_all index ys) ys = record_all index ys.
Proof.
  apply map_eq. intros name. rewrite !record_all_lookup.
  by destruct (last_offset name ys).
Qed.

(** The dictionary has no part in what an iteration does. *)
Lemma body_index_irrelevant archive pos flag pending index1 index2 :
  let b1 := get_names_body to_ascii_digits archive (mk_state pos flag pending index1) in
  let b2 := get_names_body to_ascii_digits archive (mk_state pos flag pending index2) in
  offsets (mk_result b1.1 0 b1.2) = offsets (mk_result b2.1 0 b2.2)
  /\ shape b1.2 = shape b2.2.
Proof.
  unfold get_names_body. cbv zeta. cbn [position was_first_zero_block long_link_name].
  repeat match goal with
    | |- context [if ?b then _ else _] => destruct b
    | |- context [match ?x with _ => _ end] => destruct x
    end;
    cbn [fst snd shape position was_first_zero_block long_link_name offsets events map
           ev_name ev_index];
    rewrite ?lookup_insert_eq; done.
Qed.

Lemma scan_index_irrelevant archive n pos flag pending index1 index2 :
  let r1 := scan to_ascii_digits archive n (mk_state pos flag pending index1) in
  let r2 := scan to_ascii_digits archive n (mk_state pos flag pending index2) in
  offsets r1 = offsets r2 /\ iterations r1 = iterations r2
  /\ shape (outcome r1) = shape (outcome r2).
Proof.
  cbv zeta. revert pos flag pending index1 index2.
  induction n as [|n IH]; intros pos flag pending index1 index2; [done|].
  rewrite !scan_offsets_S, !scan_S.
  destruct (body_index_irrelevant archive pos flag pending index1 index2) as [Ho Hs].
  destruct (get_names_body to_ascii_digits archive (mk_state pos flag pending index1))
    as [evs1 c1].
  destruct (get_names_body to_ascii_digits archive (mk_state pos flag pending index2))
    as [evs2 c2].
  cbn [fst snd] in Ho, Hs.
  destruct c1 as [[p1 f1 l1 i1]| |], c2 as [[p2 f2 l2 i2]| |]; try discriminate;
    cbn [shape position was_first_zero_block long_link_name] in Hs;
    cbn [iterations outcome]; [|done..].
  injection Hs as -> -> ->.
  destruct (IH p2 f2 l2 i1 i2) as (Ho' & Hi' & Hs').
  replace (offsets (mk_result evs1 0 (Running (mk_state p2 f2 l2 i1))))
    with (offsets (mk_result evs2 0 (Running (mk_state p2 f2 l2 i2)))) by (symmetry; exact Ho).
  by rewrite Ho', Hi', Hs'.
Qed.

(** ** Archives of laid-out entries *)

(** The iteration that reads the header of an entry yields its name, records
    the offset of the header, and moves past the payload. *)
Lemma body_entry_exact archive pos flag pending index block name left size :
  pread archive pos _BLOCK_SIZE = block ->
  length block = 512%nat ->
  block <> _NULL_BLOCK ->
  slice 156 157 block <> ["L"%byte] ->
  resolve_name block pending = Ok (name, left) ->
  size_field to_ascii_digits block = Ok size ->
  0 <= size ->
  get_names_body to_ascii_digits archive (mk_state pos flag pending index)
  = ([mk_event name (<[name := Z.of_nat pos]> index)],
     Running (mk_state (pos + 512 + Z.to_nat (ceil_div size 512 * 512)) false left
                (<[name := Z.of_nat pos]> index))).
Proof.
  intros Hblock Hlen Hnull Htype Hname Hsize Hnonneg.
  assert (block <> []) as Hempty by (intros ->; discriminate).
  unfold get_names_body. cbv zeta. cbn [position long_link_name file_to_position].
  rewrite Hblock. apply bytes_eqb_neq in Hnull, Hempty, Htype.
  rewrite Hnull, Hempty, Htype, Hname. cbn [orb].
  unfold size_field in Hsize. rewrite Hsize, Hlen.
  change (Z.of_nat _BLOCK_SIZE) with 512.
  replace (Z.of_nat (pos + 512) - 512) with (Z.of_nat pos) by lia.
  assert (0 <= ceil_div size 512 * 512) as Hceil.
  { unfold ceil_div. pose proof (Z.div_le_upper_bound (- size) 512 0). lia. }
  destruct (Z.ltb_spec (Z.of_nat (pos + 512) + ceil_div size 512 * 512) 0); [lia|].
  do 3 f_equal. lia.
Qed.

Lemma archive_of_cons e es : archive_of (e :: es) = entry_bytes e ++ archive_of es.
Proof. reflexivity. Qed.

(** With a budget of [n] iterations the scan lists the first [n] entries. *)
Lemma scan_entries es :
  Forall (laid_out to_ascii_digits) es ->
  forall n pre rest flag index,
    (n <= length es)%nat ->
    let r := scan to_ascii_digits (pre ++ archive_of es ++ rest) n
               (mk_state (length pre) flag None index) in
    offsets r = entry_offsets (length pre) (take n es)
    /\ iterations r = n
    /\ outcome r
       = Running (mk_state (length pre + length (archive_of (take n es)))
                    (match n with O => flag | S _ => false end) None
                    (record_all index (entry_offsets (length pre) (take n es)))).
Proof.
  induction 1 as [|e es Hlaid _ IH]; intros n pre rest flag index Hn.
  { destruct n; [|cbn in Hn; lia]. cbn. by rewrite Nat.add_0_r. }
  destruct n as [|n].
  { cbn. by rewrite Nat.add_0_r. }
  cbn [length] in Hn. cbv zeta.
  destruct Hlaid as (Hlen & Hnull & Htype & Hname & Hsize & Hnonneg & Hdata).
  rewrite scan_offsets_S, scan_S.
  rewrite (body_entry_exact _ (length pre) flag None index (entry_header e)
             (entry_name e) None (entry_size e)); try done.
  2:{ unfold pread. rewrite drop_app_length, archive_of_cons. unfold entry_bytes.
      rewrite <- !app_assoc. apply take_app_length'. by rewrite Hlen. }
  2:{ unfold resolve_name. by rewrite Hname. }
  replace (length pre + 512 + Z.to_nat (ceil_div (entry_size e) 512 * 512))%nat
    with (length (pre ++ entry_bytes e))
    by (unfold entry_bytes; rewrite !length_app; lia).
  replace (pre ++ archive_of (e :: es) ++ rest)
    with ((pre ++ entry_bytes e) ++ archive_of es ++ rest)
    by (rewrite archive_of_cons, <- !app_assoc; reflexivity).
  destruct (IH n (pre ++ entry_bytes e) rest false (<[entry_name e := Z.of_nat (length pre)]> index))
    as (Ho & Hi & Hout); [lia|].
  cbn [take entry_offsets iterations outcome]. rewrite Ho, Hi, Hout.
  unfold offsets at 1. cbn [events map ev_name ev_index]. rewrite lookup_insert_eq.
  cbn [default app]. rewrite length_app.
  split; [done|]. split; [done|]. do 2 f_equal.
  - rewrite archive_of_cons, length_app. lia.
  - by destruct n.
Qed.

Lemma zero_blocks_S k : zero_blocks (S k) = _NULL_BLOCK ++ zero_blocks k.
Proof.
  unfold zero_blocks, _NULL_BLOCK. rewrite <- replicate_add. f_equal. lia.
Qed.

(** At the zero blocks that close an archive, or at its end, the scan is
    over. *)
Lemma scan_closing_blocks l k n st :
  position st = length l ->
  nothing_more (scan to_ascii_digits (l ++ zero_blocks k) n st) (file_to_position st).
Proof.
  intros Hpos. destruct k as [|[|k]].
  - apply scan_past_end. unfold zero_blocks. rewrite length_app. cbn. lia.
  - rewrite zero_blocks_S. unfold zero_blocks at 1. cbn [replicate Nat.mul].
    rewrite app_nil_r. by apply scan_last_zero_block.
  - rewrite !zero_blocks_S.
    assert (pread (l ++ _NULL_BLOCK ++ _NULL_BLOCK ++ zero_blocks k) (length l) _BLOCK_SIZE
            = _NULL_BLOCK) as Hfirst.
    { unfold pread. rewrite drop_app_length. apply take_app_length'.
      by rewrite null_block_length. }
    assert (pread (l ++ _NULL_BLOCK ++ _NULL_BLOCK ++ zero_blocks k) (length l + 512)
              _BLOCK_SIZE = _NULL_BLOCK) as Hsecond.
    { unfold pread. rewrite <- drop_drop, drop_app_length.
      rewrite drop_app_length' by (by rewrite null_block_length).
      apply take_app_length'. by rewrite null_block_length. }
    destruct n; [done|]. rewrite scan_S, body_zero by (by rewrite Hpos).
    destruct (was_first_zero_block st); [done|].
    destruct n; [done|]. rewrite scan_S, body_zero by (cbn [position]; by rewrite Hpos).
    done.
Qed.

(** ** Properties of the listing *)

(** An archive that is a sequence of laid-out entries closed by any number
    of zero blocks is listed entry by entry, in order, each name recorded at
    the offset of its header, without exception; of more than 1000 entries
    the first 1000 are listed. *)
Theorem laid_out_archive_is_listed (es : list entry) (closing : nat)
    (index : gmap string Z) :
  Forall (laid_out to_ascii_digits) es ->
  let r := get_names to_ascii_digits (archive_of es ++ zero_blocks closing) index in
  offsets r = entry_offsets 0 (take 1000 es)
  /\ names r = map entry_name (take 1000 es)
  /\ raised (outcome r) = None
  /\ final_index (outcome r) = record_all index (entry_offsets 0 (take 1000 es)).
Proof.
  intros Hlaid. cbv zeta. rewrite get_names_unfold.
  assert (forall pos l, map fst (entry_offsets pos l) = map entry_name l) as Hnames.
  { intros pos l. revert pos. induction l as [|e l IH]; intros pos; [done|].
    cbn. by rewrite IH. }
  assert (offsets (scan to_ascii_digits (archive_of es ++ zero_blocks closing) 1000
                     (initial_state index)) = entry_offsets 0 (take 1000 es)
          /\ raised (outcome (scan to_ascii_digits (archive_of es ++ zero_blocks closing)
                                1000 (initial_state index))) = None) as [Ho Hr].
  { destruct (le_lt_dec 1000 (length es)) as [Hmany|Hfew].
    - destruct (scan_entries es Hlaid 1000 [] (zero_blocks closing) false index Hmany)
        as (Ho & _ & Hout).
      cbn [app length] in Ho, Hout. unfold initial_state. by rewrite Ho, Hout.
    - destruct (scan_entries es Hlaid (length es) [] (zero_blocks closing) false index)
        as (Ho & _ & Hout); [done|].
      cbn [app length] in Ho, Hout. rewrite firstn_all in Ho, Hout.
      replace 1000%nat with (length es + (1000 - length es))%nat by lia.
      rewrite take_ge by lia. unfold initial_state.
      rewrite scan_add. cbv zeta. rewrite Hout.
      match goal with
      | |- context [scan _ _ (1000 - length es) ?st] =>
          destruct (scan_closing_blocks (archive_of es) closing (1000 - length es) st
                      eq_refl) as (He & _ & Hraised)
      end.
      unfold offsets in *. cbn [events outcome]. rewrite map_app, Ho, He, Hraised.
      by rewrite app_nil_r. }
  split; [exact Ho|]. split; [by rewrite names_offsets, Ho, Hnames|].
  split; [exact Hr|].
  pose proof (scan_records (archive_of es ++ zero_blocks closing) 1000 (initial_state index))
    as [_ Hf].
  by rewrite Hf, Ho.
Qed.

(** After a scan the dictionary gives a yielded name the offset of its last
    occurrence in the archive, and any other name what it gave before. *)
Theorem last_occurrence_wins (archive : list byte) (index : gmap string Z) (name : string) :
  let r := get_names to_ascii_digits archive index in
  final_index (outcome r) !! name
  = match last_offset name (offsets r) with
    | Some offset => Some offset
    | None => index !! name
    end.
Proof.
  cbv zeta. rewrite get_names_unfold.
  destruct (scan_records archive 1000 (initial_state index)) as [_ ->].
  apply record_all_lookup.
Qed.

(** Every yielded name is in the dictionary when it is yielded, and the
    dictionaries of successive yields differ by the assignment made for the
    yielded name only. *)
Theorem yielded_names_are_indexed (archive : list byte) (index : gmap string Z) :
  let r := get_names to_ascii_digits archive index in
  Forall (fun ev => is_Some (ev_index ev !! ev_name ev)) (events r)
  /\ map ev_index (events r) = snapshots index (offsets r).
Proof.
  cbv zeta. rewrite get_names_unfold.
  destruct (scan_records archive 1000 (initial_state index)) as [Hsnap _].
  split; [|exact Hsnap].
  revert Hsnap. generalize (file_to_position (initial_state index)).
  unfold offsets. induction (events (scan _ _ _ _)) as [|ev evs IH]; intros m Hsnap; [done|].
  cbn [map snapshots fst snd] in Hsnap. injection Hsnap as Hev Hrest.
  constructor; [|by eapply IH].
  rewrite Hev at 1. by rewrite lookup_insert_eq.
Qed.

(** What is listed does not depend on the dictionary the parser holds: the
    names, their offsets, the number of iterations and the exception are
    those of a scan from an empty dictionary, and the dictionary at the end
    is the one held before with the assignments of that scan. *)
Theorem listing_ignores_the_dictionary (archive : list byte) (index : gmap string Z) :
  let r := get_names to_ascii_digits archive index in
  let r0 := get_names to_ascii_digits archive ∅ in
  offsets r = offsets r0
  /\ names r = names r0
  /\ iterations r = iterations r0
  /\ raised (outcome r) = raised (outcome r0)
  /\ final_index (outcome r) = record_all index (offsets r0).
Proof.
  cbv zeta. rewrite !get_names_unfold. unfold initial_state.
  destruct (scan_index_irrelevant archive 1000 0 false None index ∅) as (Ho & Hi & Hs).
  split; [exact Ho|]. split; [by rewrite !names_offsets, Ho|]. split; [exact Hi|].
  split.
  - destruct (outcome (scan _ _ _ (mk_state 0 false None index))),
      (outcome (scan _ _ _ (mk_state 0 false None ∅))); cbn in Hs |- *; congruence.
  - destruct (scan_records archive 1000 (mk_state 0 false None index)) as [_ ->].
    by rewrite Ho.
Qed.

(** A second scan of the same archive lists the same names and leaves the
    dictionary as the first scan left it. *)
Theorem second_scan_changes_nothing (archive : list byte) (index : gmap string Z) :
  let r1 := get_names to_ascii_digits archive index in
  let r2 := get_names to_ascii_digits archive (final_index (outcome r1)) in
  names r2 = names r1
  /\ offsets r2 = offsets r1
  /\ raised (outcome r2) = raised (outcome r1)
  /\ final_index (outcome r2) = final_index (outcome r1).
Proof.
  cbv zeta. rewrite !get_names_unfold. unfold initial_state.
  set (r1 := scan to_ascii_digits archive 1000 (mk_state 0 false None index)).
  destruct (scan_index_irrelevant archive 1000 0 false None (final_index (outcome r1)) index)
    as (Ho & _ & Hs). fold r1 in Ho, Hs.
  set (r2 := scan to_ascii_digits archive 1000
               (mk_state 0 false None (final_index (outcome r1)))) in *.
  split; [by rewrite !names_offsets, Ho|]. split; [exact Ho|]. split.
  - destruct (outcome r2), (outcome r1); cbn in Hs |- *; congruence.
  - destruct (scan_records archive 1000 (mk_state 0 false None (final_index (outcome r1))))
      as [_ Hf2]. fold r2 in Hf2. rewrite Hf2, Ho. cbn [file_to_position].
    destruct (scan_records archive 1000 (mk_state 0 false None index)) as [_ Hf1].
    fold r1 in Hf1. rewrite Hf1. cbn [file_to_position]. apply record_all_twice.
Qed.

(** In an archive of whole blocks every recorded offset is the start of a
    block of the archive: a multiple of 512 that is not negative and lies
    before the end. *)
Lemma scan_offsets_on_boundaries archive blocks n st :
  length archive = (512 * blocks)%nat ->
  on_boundary (position st) ->
  Forall (fun y => exists q : nat, y.2 = Z.of_nat (512 * q) /\ (q < blocks)%nat)
    (offsets (scan to_ascii_digits archive n st)).
Proof.
  intros Hlen. revert st. induction n as [|n IH]; intros st Hpos; [constructor|].
  rewrite scan_offsets_S.
  destruct (get_names_body to_ascii_digits archive st) as [evs c] eqn:Hbody.
  assert (Forall (fun y => exists q : nat, y.2 = Z.of_nat (512 * q) /\ (q < blocks)%nat)
            (offsets (mk_result evs 0 c))) as Hhere.
  { destruct (body_shape _ _ _ _ Hbody) as [[-> _]|(name & -> & _)]; [constructor|].
    unfold offsets. cbn [events map ev_name ev_index]. rewrite lookup_insert_eq.
    cbn [default]. constructor; [|constructor]. cbn [snd].
    destruct Hpos as [q Hq].
    destruct (le_lt_dec (length archive) (position st)) as [Hend|Hin].
    { rewrite body_eof in Hbody by (by apply pread_beyond). discriminate. }
    exists q. rewrite pread_full by (unfold _BLOCK_SIZE; lia). unfold _BLOCK_SIZE.
    unfold id. split; lia. }
  destruct c as [st'| |]; [|exact Hhere..].
  apply Forall_app. split; [exact Hhere|]. apply IH.
  apply (body_aligned to_ascii_digits archive st evs st'); [by exists blocks|done|done].
Qed.

Theorem offsets_are_block_starts (archive : list byte) (blocks : nat)
    (index : gmap string Z) :
  length archive = (512 * blocks)%nat ->
  Forall (fun y => exists q : nat, y.2 = Z.of_nat (512 * q) /\ (q < blocks)%nat)
    (offsets (get_names to_ascii_digits archive index)).
Proof.
  intros Hlen. rewrite get_names_unfold.
  apply (scan_offsets_on_boundaries archive blocks); [exact Hlen|by exists 0%nat].
Qed.

End ScanInvariants.

(** The listing theorems on the samples. *)

Lemma laid_out_archive_witness :
  let es := [ mk_entry Samples.directory_header [] "data/" 0;
              mk_entry Samples.gnu_header (Samples.data_block "hello") "data/a.txt" 5 ] in
  let r := get_names Samples.no_unicode (archive_of es ++ zero_blocks 2) ∅ in
  offsets r = entry_offsets 0 (take 1000 es)
  /\ names r = map entry_name (take 1000 es)
  /\ raised (outcome r) = None
  /\ final_index (outcome r) = record_all ∅ (entry_offsets 0 (take 1000 es)).
Proof.
  intros es.
  apply (laid_out_archive_is_listed Samples.no_unicode es 2 ∅).
  repeat constructor; try (vm_compute; reflexivity);
    try (apply bytes_eqb_neq; vm_compute; reflexivity);
    vm_compute; discriminate.
Defined.

(** A directory and a file in it: the names in the order of the archive, and
    the payload of the file. *)
Example directory_and_file :
  let archive :=
    Samples.directory_header ++ Samples.gnu_header ++ Samples.data_block "hello"
      ++ _NULL_BLOCK ++ _NULL_BLOCK in
  names (get_names Samples.no_unicode archive ∅) = ["data/"; "data/a.txt"]
  /\ exists data,
       get_file_data archive 512 "data/a.txt" = Ok data
       /\ get_file_bytes archive (Samples.index_of archive) data
          = Ok (list_byte_of_string "hello").
Proof.
  intros archive. split; [vm_compute; reflexivity|].
  destruct (get_file_data archive 512 "data/a.txt") as [data|e] eqn:H;
    [|vm_compute in H; discriminate].
  exists data. split; [reflexivity|]. vm_compute in H. injection H as <-.
  vm_compute. reflexivity.
Qed.

Lemma offsets_are_block_starts_witness :
  Forall (fun y => exists q : nat, y.2 = Z.of_nat (512 * q) /\ (q < 4)%nat)
    (offsets (get_names Samples.no_unicode Samples.gnu_archive ∅)).
Proof.
  apply (offsets_are_block_starts Samples.no_unicode Samples.gnu_archive 4 ∅).
  vm_compute. reflexivity.
Defined.

(** * Further properties of extraction *)

(** The path [extract] uses for a yielded name. *)
Lemma extract_entry_decoded archive dest ev fs start data :
  ev_index ev !! ev_name ev = Some start ->
  get_file_data archive start (ev_name ev) = Ok data ->
  extract_entry archive dest ev fs
  = let path := (dest ++ "/" ++ ev_name ev)%string in
    if is_str (FileHeader.file_type data) "Directory" then
      if negb (path_exists fs path) then (<[path := Directory]> fs, None) else (fs, None)
    else if is_str (FileHeader.file_type data) "Regular file" then
      if negb (path_exists fs path)
      then write_payload archive (ev_index ev) data true path fs
      else write_payload archive (ev_index ev) data false path fs
    else (fs, None).
Proof.
  intros Hidx Hdata. unfold extract_entry, position_getitem. rewrite Hidx.
  cbn [of_option bind]. rewrite Hdata.
  destruct (get_file_data_Ok _ _ _ _ Hdata)
    as (_ & _ & _ & ? & ? & ? & ? & ? & ? & _ & _ & _ & Hname & _).
  by rewrite Hname.
Qed.

Lemma path_exists_spec (fs : gmap string node) path :
  path_exists fs path = match fs !! path with Some _ => true | None => false end.
Proof.
  unfold path_exists. destruct (fs !! path) eqn:H.
  - apply bool_decide_eq_true. by eexists.
  - apply bool_decide_eq_false. by intros [? ?].
Qed.

Lemma is_str_eq t s : is_str (VStr t) s = true <-> t = s.
Proof. cbn. apply String.eqb_eq. Qed.

(** A directory entry makes the directory when nothing is at its path and
    does nothing, without raising, when anything is there, be it a
    directory or a file. *)
Theorem directory_entry_is_made_once
    (archive : list byte) (dest : string) (ev : event) (fs : gmap string node)
    (start : Z) (data : FileHeader.t) :
  ev_index ev !! ev_name ev = Some start ->
  get_file_data archive start (ev_name ev) = Ok data ->
  FileHeader.file_type data = VStr "Directory" ->
  let path := (dest ++ "/" ++ ev_name ev)%string in
  extract_entry archive dest ev fs
  = (match fs !! path with
     | Some _ => fs
     | None => <[path := Directory]> fs
     end, None).
Proof.
  intros Hidx Hdata Htype path.
  rewrite (extract_entry_decoded _ _ _ _ _ _ Hidx Hdata). cbv zeta. fold path.
  rewrite Htype, path_exists_spec.
  replace (is_str (VStr "Directory") "Directory") with true by reflexivity.
  by destruct (fs !! path).
Qed.

(** An entry that is neither a directory nor a regular file is passed over:
    nothing is written and nothing is raised. *)
Theorem other_entries_are_skipped
    (archive : list byte) (dest : string) (ev : event) (fs : gmap string node)
    (start : Z) (data : FileHeader.t) (type : string) :
  ev_index ev !! ev_name ev = Some start ->
  get_file_data archive start (ev_name ev) = Ok data ->
  FileHeader.file_type data = VStr type ->
  type <> "Directory" ->
  type <> "Regular file" ->
  extract_entry archive dest ev fs = (fs, None).
Proof.
  intros Hidx Hdata Htype Hdir Hfile.
  rewrite (extract_entry_decoded _ _ _ _ _ _ Hidx Hdata). cbv zeta. rewrite Htype.
  destruct (is_str (VStr type) "Directory") eqn:H1;
    [apply is_str_eq in H1; contradiction|].
  destruct (is_str (VStr type) "Regular file") eqn:H2;
    [apply is_str_eq in H2; contradiction|].
  reflexivity.
Qed.

(** A regular file of a size that is not negative is created with its
    payload where nothing is at its path; where a directory is at its path
    the entry fails with [IsADirectoryError] and the destination is left as
    it is. *)
Theorem regular_file_entry
    (archive : list byte) (dest : string) (ev : event) (fs : gmap string node)
    (start : Z) (data : FileHeader.t) (size : Z) :
  ev_index ev !! ev_name ev = Some start ->
  get_file_data archive start (ev_name ev) = Ok data ->
  FileHeader.file_type data = VStr "Regular file" ->
  FileHeader.size data = VInt size ->
  0 <= size ->
  let path := (dest ++ "/" ++ ev_name ev)%string in
  let payload := pread archive (Z.to_nat (start + 512)) (Z.to_nat size) in
  (fs !! path = None ->
   extract_entry archive dest ev fs = (<[path := File payload]> fs, None))
  /\ (fs !! path = Some Directory ->
      extract_entry archive dest ev fs = (fs, Some IsADirectoryError)).
Proof.
  intros Hidx Hdata Htype Hsize Hnonneg path payload.
  rewrite (extract_entry_decoded _ _ _ _ _ _ Hidx Hdata). cbv zeta. fold path.
  rewrite Htype, path_exists_spec.
  replace (is_str (VStr "Regular file") "Directory") with false by reflexivity.
  replace (is_str (VStr "Regular file") "Regular file") with true by reflexivity.
  destruct (get_file_data_Ok _ _ _ _ Hdata)
    as (Hstart & _ & _ & ? & ? & ? & ? & ? & ? & _ & _ & _ & Hname & _).
  split; intros Hpath; rewrite Hpath; cbn [negb]; unfold write_payload; rewrite Hpath.
  - by rewrite (get_file_bytes_Ok archive (ev_index ev) data (ev_name ev) start size).
  - reflexivity.
Qed.

(** The loop over two runs of names is the loop over the first and then,
    if none of its entries failed, the loop over the second; after a failure
    no later name is handled and what was written stays. *)
Theorem extract_loop_app
    (archive : list byte) (dest : string) (evs1 evs2 : list event)
    (fs : gmap string node) :
  extract_loop archive dest (evs1 ++ evs2) fs
  = match extract_loop archive dest evs1 fs with
    | (fs1, None) => extract_loop archive dest evs2 fs1
    | (fs1, Some e) => (fs1, Some e)
    end.
Proof.
  revert fs. induction evs1 as [|ev evs1 IH]; intros fs; [reflexivity|].
  cbn [app extract_loop]. destruct (extract_entry archive dest ev fs) as [fs1 [e|]].
  - reflexivity.
  - apply IH.
Qed.

Lemma kept_refl o : kept o o.
Proof. destruct o as [[c|]|]; cbn; eauto. Qed.

Lemma kept_trans a b c : kept a b -> kept b c -> kept a c.
Proof.
  destruct a as [[ca|]|]; cbn; [|by intros ->|done].
  by intros [cb ->].
Qed.

Lemma write_payload_effect archive index data exclusive path fs p :
  let fs' := (write_payload archive index data exclusive path fs).1 in
  (p <> path -> fs' !! p = fs !! p) /\ kept (fs !! p) (fs' !! p).
Proof.
  cbv zeta. unfold write_payload.
  destruct (fs !! path) as [[old|]|] eqn:Hpath;
    repeat match goal with
      | |- context [if ?b then _ else _] => destruct b
      | |- context [match ?x with Ok _ => _ | Raise _ => _ end] => destruct x
      end;
    cbn [fst]; (split; [intros Hne; by rewrite ?lookup_insert_ne by done|]);
    try apply kept_refl;
    (destruct (decide (path = p)) as [<-|Hne];
     [rewrite lookup_insert_eq, Hpath; cbn; eauto
     |rewrite lookup_insert_ne by done; apply kept_refl]).
Qed.

(** One name: only the path made of the destination and the name can change,
    and what is at it is kept. *)
Lemma extract_entry_effect archive dest ev fs p :
  let fs' := (extract_entry archive dest ev fs).1 in
  (p <> (dest ++ "/" ++ ev_name ev)%string -> fs' !! p = fs !! p)
  /\ kept (fs !! p) (fs' !! p).
Proof.
  cbv zeta.
  destruct (position_getitem (ev_index ev) (ev_name ev)) as [start|e] eqn:Hpos.
  2:{ unfold extract_entry. rewrite Hpos. cbn. split; [done|apply kept_refl]. }
  destruct (get_file_data archive start (ev_name ev)) as [data|e] eqn:Hdata.
  2:{ unfold extract_entry. rewrite Hpos. cbn [bind]. rewrite Hdata. cbn.
      split; [done|apply kept_refl]. }
  unfold position_getitem in Hpos.
  destruct (ev_index ev !! ev_name ev) as [start'|] eqn:Hidx; [|discriminate].
  injection Hpos as ->.
  rewrite (extract_entry_decoded _ _ _ _ _ _ Hidx Hdata). cbv zeta.
  set (path := (dest ++ "/" ++ ev_name ev)%string).
  rewrite path_exists_spec.
  destruct (is_str _ "Directory").
  { destruct (fs !! path) eqn:Hpath; cbn [negb fst]; [split; [done|apply kept_refl]|].
    split; [intros Hne; by rewrite lookup_insert_ne|].
    destruct (decide (path = p)) as [<-|Hne].
    - by rewrite Hpath.
    - rewrite lookup_insert_ne by done. apply kept_refl. }
  destruct (is_str _ "Regular file"); [|cbn; split; [done|apply kept_refl]].
  destruct (fs !! path); cbn [negb]; apply write_payload_effect.
Qed.

(** Extraction removes nothing and touches only the paths of the names it
    was given: a directory of the destination stays a directory, a file
    stays a file, and a path that is not that of a yielded name is left as
    it is, also when an entry fails. *)
Theorem extraction_keeps_what_is_there
    (archive : list byte) (dest : string) (evs : list event)
    (fs : gmap string node) (p : string) :
  let fs' := (extract_loop archive dest evs fs).1 in
  (p ∉ map (fun ev => (dest ++ "/" ++ ev_name ev)%string) evs -> fs' !! p = fs !! p)
  /\ kept (fs !! p) (fs' !! p).
Proof.
  cbv zeta. revert fs. induction evs as [|ev evs IH]; intros fs.
  { cbn. split; [done|apply kept_refl]. }
  cbn [extract_loop map].
  destruct (extract_entry_effect archive dest ev fs p) as [Hother Hkept].
  destruct (extract_entry archive dest ev fs) as [fs1 [e|]]; cbn [fst] in *.
  - split; [|done]. rewrite not_elem_of_cons. intros [Hne _]. by apply Hother.
  - destruct (IH fs1) as [Hother' Hkept']. split.
    + rewrite not_elem_of_cons. intros [Hne Hnot]. rewrite Hother' by done. by apply Hother.
    + by eapply kept_trans.
Qed.

(** When the header of the first name yielded has no [ustar ] marker in its
    tail, as in an archive written in the POSIX format, extraction fails at
    that name and writes nothing. *)
Theorem extraction_stops_at_a_pre_ustar_header
    (to_ascii_digits : string -> list byte)
    (archive : list byte) (index : gmap string Z) (dest : string)
    (fs : gmap string node) (ev : event) (later : list event) (start : Z) :
  events (get_names to_ascii_digits archive index) = ev :: later ->
  ev_index ev !! ev_name ev = Some start ->
  startswith (slice 257 512 (pread archive (Z.to_nat start) _BLOCK_SIZE))
    (list_byte_of_string "ustar ") = false ->
  exists e, extract to_ascii_digits archive index dest fs = (fs, Some e).
Proof.
  intros Hevents Hidx Hmagic. unfold extract. rewrite Hevents. cbn [extract_loop].
  destruct (pre_ustar_tail_never_decoded archive start (ev_name ev) Hmagic) as [e He].
  unfold extract_entry, position_getitem. rewrite Hidx. cbn [of_option bind].
  rewrite He. by exists e.
Qed.

Lemma extraction_keeps_witness :
  let evs := [mk_event "data/" {[ "data/" := 0 ]}] in
  let fs : gmap string node := {[ "out/kept" := File [] ]} in
  (extract_loop Samples.directory_header "out" evs fs).1 !! "out/kept" = fs !! "out/kept".
Proof.
  intros evs fs.
  apply (proj1 (extraction_keeps_what_is_there Samples.directory_header "out" evs fs
                  "out/kept")).
  cbn [map evs ev_name]. rewrite not_elem_of_cons. split; [discriminate|].
  apply not_elem_of_nil.
Defined.

Lemma directory_entry_witness :
  let ev := mk_event "data/" {[ "data/" := 0 ]} in
  let fs : gmap string node := ∅ in
  let path := ("out" ++ "/" ++ ev_name ev)%string in
  extract_entry Samples.directory_header "out" ev fs
  = (match fs !! path with
     | Some _ => fs
     | None => <[path := Directory]> fs
     end, None).
Proof.
  intros ev fs.
  eapply (directory_entry_is_made_once Samples.directory_header "out" ev fs 0).
  - vm_compute. reflexivity.
  - vm_compute. reflexivity.
  - reflexivity.
Defined.

Lemma other_entries_witness :
  extract_entry Samples.symlink_header "out" (mk_event "link" {[ "link" := 0 ]}) ∅
  = (∅, None).
Proof.
  eapply (other_entries_are_skipped Samples.symlink_header "out"
            (mk_event "link" {[ "link" := 0 ]}) ∅ 0 _ "Symbolic link").
  - vm_compute. reflexivity.
  - vm_compute. reflexivity.
  - reflexivity.
  - discriminate.
  - discriminate.
Defined.

Lemma regular_file_witness :
  let ev := mk_event "data/a.txt" {[ "data/a.txt" := 0 ]} in
  let path := ("out" ++ "/" ++ ev_name ev)%string in
  let payload := pread Samples.gnu_archive (Z.to_nat (0 + 512)) (Z.to_nat 5) in
  extract_entry Samples.gnu_archive "out" ev ∅ = (<[path := File payload]> ∅, None)
  /\ extract_entry Samples.gnu_archive "out" ev {[ path := Directory ]}
     = ({[ path := Directory ]}, Some IsADirectoryError).
Proof.
  intros ev path payload.
  assert (get_file_data Samples.gnu_archive 0 (ev_name ev)
          = Ok (FileHeader.mk (VStr "data/a.txt") (VInt 420) (VInt 1000) (VInt 1000) (VInt 5)
              (VDatetime 1402433619) (VStr "005492") (VStr "Regular file") (VStr EmptyString)
              (VStr "ustar ") (VStr " ") (VStr "victor") (VStr "victor")
              (VStr EmptyString) (VStr EmptyString) (VStr EmptyString) (VStr EmptyString)))
    as Hdata by (vm_compute; reflexivity).
  split.
  - apply (proj1 (regular_file_entry Samples.gnu_archive "out" ev ∅ 0 _ 5
                    eq_refl Hdata eq_refl eq_refl ltac:(lia))). reflexivity.
  - apply (proj2 (regular_file_entry Samples.gnu_archive "out" ev {[ path := Directory ]}
                    0 _ 5 eq_refl Hdata eq_refl eq_refl ltac:(lia))).
    vm_compute. reflexivity.
Defined.

Lemma extraction_stops_witness :
  exists e,
    extract Samples.no_unicode Samples.posix_archive ∅ "out" ∅ = (∅, Some e).
Proof.
  eapply (extraction_stops_at_a_pre_ustar_header Samples.no_unicode Samples.posix_archive
            ∅ "out" ∅ _ _ 0).
  - vm_compute. reflexivity.
  - vm_compute. reflexivity.
  - vm_compute. reflexivity.
Defined.

(** * Further properties of the header codec *)

Lemma octal_digit_range b d : octal_digit b = Some d -> 0 <= d <= 7.
Proof.
  unfold octal_digit. destruct (_ && _) eqn:H; [|discriminate].
  intros [= <-]. apply andb_true_iff in H as [H1 H2].
  apply N.leb_le in H1, H2. lia.
Qed.

Lemma scan_octal_bound bs acc digits prev v digits' rest :
  0 <= acc < 8 ^ Z.of_nat digits ->
  scan_octal bs acc digits prev = Some (v, digits', rest) ->
  0 <= v < 8 ^ Z.of_nat digits' /\ (digits' + length rest <= digits + length bs)%nat.
Proof.
  revert acc digits prev. induction bs as [|b bs IH]; intros acc digits prev Hacc; cbn.
  - destruct prev; [discriminate|]. intros [= <- <- <-]. cbn. lia.
  - destruct (Byte.eqb b "_"%byte).
    + destruct prev; [discriminate|]. intros H. apply IH in H; [|done]. lia.
    + destruct (octal_digit b) as [d|] eqn:Hd.
      * intros H. apply octal_digit_range in Hd. apply IH in H; [lia|].
        rewrite Nat2Z.inj_succ, Z.pow_succ_r by lia. lia.
      * destruct prev; [discriminate|]. intros [= <- <- <-]. cbn. lia.
Qed.

Lemma skip_spaces_length bs : (length (skip_spaces bs) <= length bs)%nat.
Proof. induction bs as [|b bs IH]; cbn; [lia|]. destruct (is_space b); cbn; lia. Qed.

Lemma skip_sign_length bs :
  (length (skip_sign bs).2 + (if (skip_sign bs).1 then 1 else 0) <= length bs)%nat.
Proof.
  destruct bs as [|b bs]; cbn; [lia|].
  destruct (Byte.eqb b "+"%byte); [cbn; lia|]. destruct (Byte.eqb b "-"%byte); cbn; lia.
Qed.

Lemma skip_prefix_length bs : (length (skip_prefix bs) <= length bs)%nat.
Proof.
  destruct bs as [|b0 [|b1 bs]]; cbn; try lia.
  destruct (_ && _); cbn; [|lia]. destruct bs as [|u bs]; cbn; [lia|].
  destruct (Byte.eqb u "_"%byte); cbn; lia.
Qed.

(** A field of [n] bytes holds a number below [8 ^ n], and above
    [- 8 ^ (n - 1)] as the sign takes a byte. *)
Lemma int_octal_bound bs v :
  int_octal bs = Ok v ->
  - 8 ^ (Z.of_nat (length bs) - 1) < v < 8 ^ Z.of_nat (length bs).
Proof.
  unfold int_octal.
  pose proof (skip_spaces_length bs) as H1.
  pose proof (skip_sign_length (skip_spaces bs)) as H2.
  destruct (skip_sign (skip_spaces bs)) as [negative s]. cbn [fst snd] in H2.
  pose proof (skip_prefix_length s) as H3.
  destruct (startswith _ _); [discriminate|].
  destruct (scan_octal (skip_prefix s) 0 0 false) as [[[w [|d]] rest]|] eqn:Hscan;
    try discriminate.
  apply scan_octal_bound in Hscan as [Hw Hd]; [|cbn; lia].
  destruct (skip_spaces rest); [|discriminate]. intros [= <-].
  assert (0 < 8 ^ (Z.of_nat (length bs) - 1)) by (apply Z.pow_pos_nonneg; lia).
  destruct negative.
  - assert (8 ^ Z.of_nat (S d) <= 8 ^ (Z.of_nat (length bs) - 1))
      by (apply Z.pow_le_mono_r; lia).
    assert (0 < 8 ^ Z.of_nat (length bs)) by (apply Z.pow_pos_nonneg; lia). lia.
  - assert (8 ^ Z.of_nat (S d) <= 8 ^ Z.of_nat (length bs))
      by (apply Z.pow_le_mono_r; lia).
    lia.
Qed.

Lemma lstrip_nul_length bs : (length (lstrip_nul bs) <= length bs)%nat.
Proof. induction bs as [|b bs IH]; cbn; [lia|]. destruct (Byte.eqb b x00); cbn; lia. Qed.

Lemma strip_nul_length bs : (length (strip_nul bs) <= length bs)%nat.
Proof.
  unfold strip_nul. rewrite length_rev.
  pose proof (lstrip_nul_length (rev (lstrip_nul bs))) as H1.
  rewrite length_rev in H1. pose proof (lstrip_nul_length bs). lia.
Qed.

Lemma slice_length_le {A} lo hi (l : list A) : (length (slice lo hi l) <= hi - lo)%nat.
Proof. unfold slice. rewrite length_take. lia. Qed.

Lemma field_bound lo hi block v :
  (lo < hi)%nat ->
  int_octal (strip_nul (slice lo hi block)) = Ok v ->
  - 8 ^ (Z.of_nat (hi - lo) - 1) < v < 8 ^ Z.of_nat (hi - lo).
Proof.
  intros Hwide H. apply int_octal_bound in H.
  pose proof (strip_nul_length (slice lo hi block)).
  pose proof (slice_length_le lo hi block).
  assert (8 ^ Z.of_nat (length (strip_nul (slice lo hi block))) <= 8 ^ Z.of_nat (hi - lo))
    by (apply Z.pow_le_mono_r; lia).
  assert (0 < 8 ^ (Z.of_nat (hi - lo) - 1)) by (apply Z.pow_pos_nonneg; lia).
  destruct (length (strip_nul (slice lo hi block))) as [|n] eqn:Hn.
  - cbn in H. lia.
  - assert (8 ^ (Z.of_nat (S n) - 1) <= 8 ^ (Z.of_nat (hi - lo) - 1))
      by (apply Z.pow_le_mono_r; lia).
    lia.
Qed.

(** The numbers of a record with the fields they are read from. *)
Lemma get_file_data_numbers archive start filename d :
  get_file_data archive start filename = Ok d ->
  let block := pread archive (Z.to_nat start) _BLOCK_SIZE in
  exists mode uid gid size seconds,
    int_octal (strip_nul (slice 100 108 block)) = Ok mode
    /\ int_octal (strip_nul (slice 108 116 block)) = Ok uid
    /\ int_octal (strip_nul (slice 116 124 block)) = Ok gid
    /\ int_octal (strip_nul (slice 124 136 block)) = Ok size
    /\ int_octal (strip_nul (slice 136 148 block)) = Ok seconds
    /\ FileHeader.access_mod d = VInt mode
    /\ FileHeader.user_id d = VInt uid
    /\ FileHeader.group_id d = VInt gid
    /\ FileHeader.size d = VInt size
    /\ FileHeader.last_mod_time d = VDatetime seconds.
Proof.
  intros H block.
  destruct (Z.lt_ge_cases start 0) as [Hneg|Hpos];
    [rewrite get_file_data_negative in H by done; discriminate|].
  destruct (decide (length block = 512%nat)) as [Hlen|Hlen];
    [|rewrite get_file_data_short in H by done; discriminate].
  rewrite get_file_data_eq in H by done. fold block in H.
  unfold header_of_block in H.
  destruct (startswith (slice 257 512 block) _) eqn:Hmagic;
    cbn [unpack_fields item_size app _HEADER_FMT2 _HEADER_FMT3] in H;
    rewrite decode_header_result in H; header_binds; try discriminate.
  repeat match goal with
    | Hs : fromtimestamp (VInt _) = Ok _ |- _ => apply fromtimestamp_int in Hs; subst
    end.
  cbn in H. injection H as <-. by eexists _, _, _, _, _.
Qed.

(** The numbers of a record are bounded by the width of their fields: mode,
    uid and gid lie between [- 8 ^ 7] and [8 ^ 8], size and modification time
    between [- 8 ^ 11] and [8 ^ 12]. *)
Theorem decoded_numbers_are_bounded
    (archive : list byte) (start : Z) (filename : string) (data : FileHeader.t) :
  get_file_data archive start filename = Ok data ->
  exists mode uid gid size seconds,
    FileHeader.access_mod data = VInt mode
    /\ FileHeader.user_id data = VInt uid
    /\ FileHeader.group_id data = VInt gid
    /\ FileHeader.size data = VInt size
    /\ FileHeader.last_mod_time data = VDatetime seconds
    /\ - 8 ^ 7 < mode < 8 ^ 8
    /\ - 8 ^ 7 < uid < 8 ^ 8
    /\ - 8 ^ 7 < gid < 8 ^ 8
    /\ - 8 ^ 11 < size < 8 ^ 12
    /\ - 8 ^ 11 < seconds < 8 ^ 12.
Proof.
  intros H. apply get_file_data_numbers in H
    as (mode & uid & gid & size & seconds & H1 & H2 & H3 & H4 & H5 & E1 & E2 & E3 & E4 & E5).
  exists mode, uid, gid, size, seconds.
  apply (field_bound 100 108) in H1; [|lia]. apply (field_bound 108 116) in H2; [|lia].
  apply (field_bound 116 124) in H3; [|lia]. apply (field_bound 124 136) in H4; [|lia].
  apply (field_bound 136 148) in H5; [|lia].
  change (Z.of_nat (108 - 100)) with 8 in H1. change (Z.of_nat (116 - 108)) with 8 in H2.
  change (Z.of_nat (124 - 116)) with 8 in H3. change (Z.of_nat (136 - 124)) with 12 in H4.
  change (Z.of_nat (148 - 136)) with 12 in H5.
  change (8 - 1) with 7 in *. change (12 - 1) with 11 in *.
  repeat split; try assumption; lia.
Qed.

Lemma decoded_numbers_witness :
  exists mode uid gid size seconds,
    let data := FileHeader.mk (VStr "data/a.txt") (VInt 420) (VInt 1000) (VInt 1000) (VInt 5)
              (VDatetime 1402433619) (VStr "005492") (VStr "Regular file") (VStr EmptyString)
              (VStr "ustar ") (VStr " ") (VStr "victor") (VStr "victor")
              (VStr EmptyString) (VStr EmptyString) (VStr EmptyString) (VStr EmptyString) in
    FileHeader.access_mod data = VInt mode
    /\ FileHeader.user_id data = VInt uid
    /\ FileHeader.group_id data = VInt gid
    /\ FileHeader.size data = VInt size
    /\ FileHeader.last_mod_time data = VDatetime seconds
    /\ - 8 ^ 7 < mode < 8 ^ 8
    /\ - 8 ^ 7 < uid < 8 ^ 8
    /\ - 8 ^ 7 < gid < 8 ^ 8
    /\ - 8 ^ 11 < size < 8 ^ 12
    /\ - 8 ^ 11 < seconds < 8 ^ 12.
Proof.
  apply (decoded_numbers_are_bounded Samples.gnu_archive 0 "data/a.txt").
  vm_compute. reflexivity.
Defined.

Lemma mapM_decode_valid l :
  Forall (fun f => utf8_valid (map Byte.to_N (strip_nul f)) = true) l ->
  mapM (fun i => let* s := decode (strip_nul i) in Ok (VStr s)) l = Ok (map text l).
Proof.
  induction 1 as [|f l Hf _ IH]; [reflexivity|].
  cbn [mapM map]. unfold decode at 1. rewrite Hf. cbn [bind]. by rewrite IH.
Qed.

(** A full block with the GNU marker whose fields are valid UTF-8, whose
    five numbers read in base 8 and whose type flag is in the table decodes
    to the record of these values under the name asked for; the time stamp
    is always within the range of the calendar. *)
Theorem get_file_data_succeeds
    (archive : list byte) (start : Z) (filename : string)
    (mode uid gid size seconds : Z) (type : string) :
  let block := pread archive (Z.to_nat start) _BLOCK_SIZE in
  let tail := slice 257 512 block in
  0 <= start ->
  length block = 512%nat ->
  startswith tail (list_byte_of_string "ustar ") = true ->
  Forall (fun f => utf8_valid (map Byte.to_N (strip_nul f)) = true) (header_of_block block) ->
  int_octal (strip_nul (slice 100 108 block)) = Ok mode ->
  int_octal (strip_nul (slice 108 116 block)) = Ok uid ->
  int_octal (strip_nul (slice 116 124 block)) = Ok gid ->
  int_octal (strip_nul (slice 124 136 block)) = Ok size ->
  int_octal (strip_nul (slice 136 148 block)) = Ok seconds ->
  assoc_bytes _FILE_TYPES (slice 156 157 block) = Some type ->
  get_file_data archive start filename
  = Ok (FileHeader.mk (VStr filename) (VInt mode) (VInt uid) (VInt gid) (VInt size)
          (VDatetime seconds) (text (slice 148 156 block)) (VStr type)
          (text (slice 157 257 block))
          (text (slice 0 6 tail)) (text (slice 6 8 tail)) (text (slice 8 40 tail))
          (text (slice 40 72 tail)) (text (slice 72 80 tail)) (text (slice 80 88 tail))
          (text (slice 88 243 tail)) (text (slice 243 255 tail))).
Proof.
  intros block tail Hstart Hlen Hmagic Hvalid Hmode Huid Hgid Hsize Hseconds Htype.
  rewrite get_file_data_eq by done. fold block.
  pose proof (mapM_decode_valid _ Hvalid) as Hdecoded.
  unfold header_of_block in *. fold tail in Hdecoded |- *. rewrite Hmagic in *.
  assert (unpack_fields _HEADER_FMT2 tail
          = [slice 0 6 tail; slice 6 8 tail; slice 8 40 tail; slice 40 72 tail;
             slice 72 80 tail; slice 80 88 tail; slice 88 243 tail; slice 243 255 tail])
    as Hfields.
  { unfold _HEADER_FMT2, slice. cbn [unpack_fields item_size].
    rewrite !drop_drop. reflexivity. }
  rewrite Hfields in *. cbn [app] in *.
  rewrite decode_header_result, Hdecoded, Hmode, Huid, Hgid, Hsize, Hseconds.
  cbn [bind]. apply (field_bound 136 148) in Hseconds; [|lia].
  change (Z.of_nat (148 - 136)) with 12 in Hseconds.
  change (8 ^ 12) with 68719476736 in Hseconds.
  change (8 ^ (12 - 1)) with 8589934592 in Hseconds.
  unfold fromtimestamp.
  destruct (Z.ltb_spec (-62135596800) seconds); [|lia].
  destruct (Z.leb_spec seconds 253402300799); [|lia].
  cbn [andb bind]. unfold file_types_getitem. rewrite Htype. reflexivity.
Qed.

Lemma get_file_data_succeeds_witness :
  let block := pread Samples.gnu_archive (Z.to_nat 0) _BLOCK_SIZE in
  let tail := slice 257 512 block in
  get_file_data Samples.gnu_archive 0 "data/a.txt"
  = Ok (FileHeader.mk (VStr "data/a.txt") (VInt 420) (VInt 1000) (VInt 1000) (VInt 5)
          (VDatetime 1402433619) (text (slice 148 156 block)) (VStr "Regular file")
          (text (slice 157 257 block))
          (text (slice 0 6 tail)) (text (slice 6 8 tail)) (text (slice 8 40 tail))
          (text (slice 40 72 tail)) (text (slice 72 80 tail)) (text (slice 80 88 tail))
          (text (slice 88 243 tail)) (text (slice 243 255 tail))).
Proof.
  apply (get_file_data_succeeds Samples.gnu_archive 0 "data/a.txt" 420 1000 1000 5
           1402433619 "Regular file").
  - lia.
  - vm_compute. reflexivity.
  - vm_compute. reflexivity.
  - vm_compute. repeat constructor.
  - vm_compute. reflexivity.
  - vm_compute. reflexivity.
  - vm_compute. reflexivity.
  - vm_compute. reflexivity.
  - vm_compute. reflexivity.
  - vm_compute. reflexivity.
Defined.

(** ** Padding *)

Lemma lstrip_nul_replicate a bs : lstrip_nul (replicate a x00 ++ bs) = lstrip_nul bs.
Proof. induction a as [|a IH]; [reflexivity|]. cbn. exact IH. Qed.

Lemma lstrip_nul_id bs : head bs <> Some x00 -> lstrip_nul bs = bs.
Proof.
  destruct bs as [|b bs]; [reflexivity|]. cbn. intros Hb.
  destruct (Byte.eqb b x00) eqn:E; [|reflexivity].
  apply Byte.byte_dec_bl in E. congruence.
Qed.

Lemma head_rev {A} (l : list A) : head (rev l) = last l.
Proof.
  induction l as [|a l IH] using rev_ind; [reflexivity|].
  rewrite rev_app_distr, last_snoc. reflexivity.
Qed.

Lemma last_without_nul (l : list byte) :
  Forall (fun b => b <> x00) l -> last l <> Some x00.
Proof.
  intros Hl Hlast. apply last_Some_elem_of in Hlast.
  rewrite Forall_forall in Hl. by apply (Hl x00).
Qed.

Lemma strip_nul_padded (a b : nat) (core : list byte) :
  head core <> Some x00 ->
  last core <> Some x00 ->
  strip_nul (replicate a x00 ++ core ++ replicate b x00) = core.
Proof.
  intros Hhead Hlast. unfold strip_nul. rewrite lstrip_nul_replicate.
  destruct core as [|c core].
  { cbn [app]. replace (replicate b x00) with (replicate b x00 ++ []) by apply app_nil_r.
    rewrite lstrip_nul_replicate. reflexivity. }
  rewrite (lstrip_nul_id ((c :: core) ++ replicate b x00)) by (cbn in *; done).
  rewrite rev_app_distr, <- reverse_replicate.
  replace (rev (reverse (replicate b x00))) with (replicate b x00)
    by (unfold reverse; rewrite rev_alt, rev_append_rev, app_nil_r; symmetry;
        rewrite <- rev_alt; apply rev_involutive).
  rewrite lstrip_nul_replicate, (lstrip_nul_id (rev (c :: core))) by (by rewrite head_rev).
  apply rev_involutive.
Qed.

(** [strip] removes the NUL padding on both sides of a field and nothing
    else. *)
Theorem strip_nul_removes_padding (a b : nat) (core : list byte) :
  head core <> Some x00 ->
  last core <> Some x00 ->
  strip_nul (replicate a x00 ++ core ++ replicate b x00) = core.
Proof. apply strip_nul_padded. Qed.

Lemma strip_nul_witness :
  strip_nul (replicate 2 x00 ++ list_byte_of_string "a.txt" ++ replicate 95 x00)
  = list_byte_of_string "a.txt".
Proof.
  apply (strip_nul_removes_padding 2 95 (list_byte_of_string "a.txt")); discriminate.
Defined.

(** ** Numbers *)

Lemma scan_octal_digits ds rest acc digits :
  Forall (fun b => is_Some (octal_digit b)) ds ->
  head rest <> Some "_"%byte ->
  (forall b, head rest = Some b -> octal_digit b = None) ->
  scan_octal (ds ++ rest) acc digits false
  = Some (foldl (fun acc b => 8 * acc + default 0 (octal_digit b)) acc ds,
          (digits + length ds)%nat, rest).
Proof.
  intros Hds Hus Hnd. revert acc digits.
  induction Hds as [|d ds [v Hv] _ IH]; intros acc digits.
  - cbn [app foldl length]. rewrite Nat.add_0_r.
    destruct rest as [|b rest]; [reflexivity|]. cbn.
    destruct (Byte.eqb b "_"%byte) eqn:E;
      [apply Byte.byte_dec_bl in E; cbn in Hus; congruence|].
    by rewrite (Hnd b eq_refl).
  - cbn [app foldl length scan_octal]. rewrite Hv.
    destruct (Byte.eqb d "_"%byte) eqn:E.
    { apply Byte.byte_dec_bl in E. subst d. vm_compute in Hv. discriminate. }
    rewrite IH. cbn [default]. do 2 f_equal. f_equal. lia.
Qed.

Lemma skip_spaces_blanks k bs :
  skip_spaces (replicate k " "%byte ++ bs) = skip_spaces bs.
Proof. induction k as [|k IH]; [reflexivity|]. cbn. exact IH. Qed.

Lemma digit_facts d :
  is_Some (octal_digit d) ->
  is_space d = false /\ d <> x00 /\ d <> "+"%byte /\ d <> "-"%byte /\ d <> "_"%byte
  /\ d <> "o"%byte /\ d <> "O"%byte.
Proof.
  intros [v Hv]. unfold octal_digit in Hv.
  destruct (_ && _) eqn:H; [|discriminate]. clear Hv.
  apply andb_true_iff in H as [H1 H2]. apply N.leb_le in H1, H2.
  unfold is_space. split.
  - destruct (N.leb_spec 9 (Byte.to_N d)), (N.leb_spec (Byte.to_N d) 13),
      (N.eqb_spec (Byte.to_N d) 32); cbn; try reflexivity; lia.
  - repeat split; intros ->; vm_compute in H1, H2; congruence.
Qed.

(** A numeric field as tar writers fill it: blanks, octal digits, blanks,
    NUL padding.  It reads as the number the digits write. *)
Theorem numeric_field_is_read (lead trail pad : nat) (ds : list byte) :
  ds <> [] ->
  Forall (fun b => is_Some (octal_digit b)) ds ->
  int_octal (strip_nul (replicate lead " "%byte ++ ds ++ replicate trail " "%byte
                          ++ replicate pad x00))
  = Ok (octal_value ds).
Proof.
  intros Hne Hds.
  destruct ds as [|d ds]; [contradiction|]. clear Hne.
  pose proof (Forall_inv Hds) as Hd. apply digit_facts in Hd
    as (Hspace & Hnul & Hplus & Hminus & Hus & Ho & HO).
  replace (replicate lead " "%byte ++ (d :: ds) ++ replicate trail " "%byte
             ++ replicate pad x00)
    with (replicate 0 x00
            ++ (replicate lead " "%byte ++ (d :: ds) ++ replicate trail " "%byte)
            ++ replicate pad x00)
    by (cbn [replicate app]; rewrite <- ?app_assoc; cbn [app]; rewrite <- ?app_assoc;
        reflexivity).
  rewrite strip_nul_padded.
  2:{ destruct lead; cbn; congruence. }
  2:{ apply last_without_nul. rewrite !Forall_app. repeat split.
      - apply Forall_replicate. discriminate.
      - eapply Forall_impl; [exact Hds|]. intros b Hb. apply digit_facts in Hb. tauto.
      - apply Forall_replicate. discriminate. }
  unfold int_octal. rewrite skip_spaces_blanks.
  cbn [app skip_spaces]. rewrite Hspace.
  assert (skip_sign (d :: ds ++ replicate trail " "%byte)
          = (false, d :: ds ++ replicate trail " "%byte)) as ->.
  { cbn. destruct (Byte.eqb d "+"%byte) eqn:E1;
      [apply Byte.byte_dec_bl in E1; congruence|].
    destruct (Byte.eqb d "-"%byte) eqn:E2;
      [apply Byte.byte_dec_bl in E2; congruence|]. reflexivity. }
  assert (skip_prefix (d :: ds ++ replicate trail " "%byte)
          = d :: ds ++ replicate trail " "%byte) as ->.
  { cbn. destruct (ds ++ replicate trail " "%byte) as [|b1 t] eqn:Hrest; [reflexivity|].
    assert (b1 <> "o"%byte /\ b1 <> "O"%byte) as [H1 H2].
    { destruct ds as [|d1 ds'].
      - destruct trail; [discriminate|]. cbn in Hrest. injection Hrest as <- _.
        split; discriminate.
      - cbn in Hrest. injection Hrest as <- _.
        apply Forall_inv_tail, Forall_inv, digit_facts in Hds. tauto. }
    destruct (Byte.eqb b1 "o"%byte) eqn:E1;
      [apply Byte.byte_dec_bl in E1; congruence|].
    destruct (Byte.eqb b1 "O"%byte) eqn:E2;
      [apply Byte.byte_dec_bl in E2; congruence|].
    by rewrite andb_false_r. }
  replace (startswith (d :: ds ++ replicate trail " "%byte) ["_"%byte]) with false.
  2:{ cbn. destruct (Byte.eqb d "_"%byte) eqn:E;
        [apply Byte.byte_dec_bl in E; congruence|reflexivity]. }
  rewrite app_comm_cons, (scan_octal_digits (d :: ds) (replicate trail " "%byte) 0 0 Hds).
  2:{ destruct trail; cbn; congruence. }
  2:{ destruct trail; cbn; [congruence|]. intros b [= <-]. reflexivity. }
  cbn [length Nat.add].
  replace (skip_spaces (replicate trail " "%byte)) with (@nil byte).
  2:{ replace (replicate trail " "%byte) with (replicate trail " "%byte ++ [])
        by apply app_nil_r. by rewrite skip_spaces_blanks. }
  reflexivity.
Qed.

Lemma numeric_field_witness :
  int_octal (strip_nul (replicate 1 " "%byte ++ list_byte_of_string "0000644"
                          ++ replicate 1 " "%byte ++ replicate 3 x00))
  = Ok (octal_value (list_byte_of_string "0000644")).
Proof.
  apply (numeric_field_is_read 1 1 3 (list_byte_of_string "0000644")).
  - discriminate.
  - repeat constructor; by eexists.
Defined.

(** ** Blocks that cannot hold a header *)

(** [get_file_data] needs a whole block: at a negative offset (of 64 bits)
    the seek fails, and at an offset of the file after which fewer than 512
    bytes are left, be the file empty or cut inside a header, [unpack]
    fails. *)
Theorem get_file_data_needs_a_full_block
    (archive : list byte) (start : Z) (filename : string) :
  (- 2 ^ 63 <= start < 0 -> get_file_data archive start filename = Raise OSError)
  /\ (0 <= start <= Z.of_nat (length archive) ->
      Z.of_nat (length archive) < start + 512 ->
      get_file_data archive start filename = Raise StructError).
Proof.
  split.
  - intros [_ Hneg]. by apply get_file_data_negative.
  - intros [Hstart _] Hshort. apply get_file_data_short; [exact Hstart|].
    rewrite pread_length. unfold _BLOCK_SIZE. lia.
Qed.

Lemma get_file_data_needs_a_full_block_witness :
  get_file_data Samples.truncated_archive (-1) "data/a.txt" = Raise OSError
  /\ get_file_data Samples.truncated_archive 512 "data/a.txt" = Raise StructError.
Proof.
  split.
  - apply (proj1 (get_file_data_needs_a_full_block Samples.truncated_archive (-1)
                    "data/a.txt")). lia.
  - apply (proj2 (get_file_data_needs_a_full_block Samples.truncated_archive 512
                    "data/a.txt")); [vm_compute; split; discriminate|].
    vm_compute. reflexivity.
Defined.

(** A name that is not a key of the dictionary is refused before the file is
    looked at: [file_stat], [get_file_bytes] and the loop body of [extract]
    fail with the [KeyError] of the name, whatever the archive holds, and the
    destination is left as it is.  So it is for every name before the first
    scan. *)
Theorem unknown_name_is_a_key_error
    (archive : list byte) (index : gmap string Z) (name : string)
    (data : FileHeader.t) (dest : string) (fs : gmap string node) :
  index !! name = None ->
  FileHeader.file_name data = VStr name ->
  file_stat archive index name = Raise (KeyError (KStr name))
  /\ get_file_bytes archive index data = Raise (KeyError (KStr name))
  /\ extract_entry archive dest (mk_event name index) fs = (fs, Some (KeyError (KStr name))).
Proof.
  intros Hidx Hname. unfold file_stat, get_file_bytes, extract_entry, position_getitem.
  cbn [ev_index ev_name]. by rewrite Hname, Hidx.
Qed.

Lemma unknown_name_witness :
  let data := FileHeader.mk (VStr "absent") VNone VNone VNone VNone VNone VNone VNone VNone
                VNone VNone VNone VNone VNone VNone VNone VNone in
  file_stat Samples.gnu_archive ∅ "absent" = Raise (KeyError (KStr "absent"))
  /\ get_file_bytes Samples.gnu_archive ∅ data = Raise (KeyError (KStr "absent"))
  /\ extract_entry Samples.gnu_archive "out" (mk_event "absent" ∅) ∅
     = (∅, Some (KeyError (KStr "absent"))).
Proof.
  intros data.
  apply (unknown_name_is_a_key_error Samples.gnu_archive ∅ "absent" data "out" ∅);
    reflexivity.
Defined.

(** ** Extraction and the dictionary *)

(** The loop body uses a yielded name and the offset the dictionary gives
    it, and nothing else of the dictionary. *)
Lemma extract_entry_ext archive dest ev1 ev2 fs :
  ev_name ev1 = ev_name ev2 ->
  ev_index ev1 !! ev_name ev1 = ev_index ev2 !! ev_name ev2 ->
  extract_entry archive dest ev1 fs = extract_entry archive dest ev2 fs.
Proof.
  intros Hname Hlookup. unfold extract_entry, position_getitem.
  rewrite <- Hlookup, <- Hname.
  destruct (ev_index ev1 !! ev_name ev1) as [start|] eqn:Hidx; [|reflexivity].
  cbn [of_option bind].
  destruct (get_file_data archive start (ev_name ev1)) as [data|e] eqn:Hdata; [|reflexivity].
  destruct (get_file_data_Ok _ _ _ _ Hdata)
    as (_ & _ & _ & ? & ? & ? & ? & ? & ? & _ & _ & _ & Hn & _).
  rewrite Hn.
  assert (forall exclusive path,
            write_payload archive (ev_index ev1) data exclusive path fs
            = write_payload archive (ev_index ev2) data exclusive path fs) as Hwrite.
  { assert (ev_index ev2 !! ev_name ev1 = Some start) as Hidx2
      by (rewrite Hname; symmetry; exact Hlookup).
    intros exclusive path. unfold write_payload, get_file_bytes, position_getitem.
    by rewrite Hn, Hidx, Hidx2. }
  by rewrite !Hwrite.
Qed.

Lemma extract_loop_ext archive dest evs1 evs2 fs :
  Forall2 (fun ev1 ev2 => ev_name ev1 = ev_name ev2
                          /\ ev_index ev1 !! ev_name ev1 = ev_index ev2 !! ev_name ev2)
    evs1 evs2 ->
  extract_loop archive dest evs1 fs = extract_loop archive dest evs2 fs.
Proof.
  intros H. revert fs. induction H as [|ev1 ev2 evs1 evs2 [Hn Hl] _ IH]; intros fs;
    [reflexivity|].
  cbn [extract_loop]. rewrite (extract_entry_ext archive dest ev1 ev2 fs Hn Hl).
  destruct (extract_entry archive dest ev2 fs) as [fs1 [e|]]; [reflexivity|apply IH].
Qed.

Lemma events_indexed to_ascii_digits archive n st :
  Forall (fun ev => is_Some (ev_index ev !! ev_name ev))
    (events (scan to_ascii_digits archive n st)).
Proof.
  destruct (scan_records to_ascii_digits archive n st) as [Hsnap _].
  revert Hsnap. generalize (file_to_position st).
  unfold offsets. induction (events (scan _ _ _ _)) as [|ev evs IH]; intros m Hsnap; [done|].
  cbn [map snapshots fst snd] in Hsnap. injection Hsnap as Hev Hrest.
  constructor; [|by eapply IH].
  rewrite Hev at 1. by rewrite lookup_insert_eq.
Qed.

Lemma events_related to_ascii_digits archive n pos flag pending index1 index2 :
  Forall2 (fun ev1 ev2 => ev_name ev1 = ev_name ev2
                          /\ ev_index ev1 !! ev_name ev1 = ev_index ev2 !! ev_name ev2)
    (events (scan to_ascii_digits archive n (mk_state pos flag pending index1)))
    (events (scan to_ascii_digits archive n (mk_state pos flag pending index2))).
Proof.
  destruct (scan_index_irrelevant to_ascii_digits archive n pos flag pending index1 index2)
    as (Ho & _).
  pose proof (events_indexed to_ascii_digits archive n (mk_state pos flag pending index1))
    as Hs1.
  pose proof (events_indexed to_ascii_digits archive n (mk_state pos flag pending index2))
    as Hs2.
  unfold offsets in Ho. revert Ho Hs1 Hs2.
  generalize (events (scan to_ascii_digits archive n (mk_state pos flag pending index1))).
  generalize (events (scan to_ascii_digits archive n (mk_state pos flag pending index2))).
  intros evs2 evs1. revert evs2.
  induction evs1 as [|ev1 evs1 IH]; intros [|ev2 evs2] Ho Hs1 Hs2; try discriminate;
    [constructor|].
  cbn [map] in Ho. injection Ho as Hn Hd Hrest.
  apply Forall_cons in Hs1 as [[o1 H1] Hs1]. apply Forall_cons in Hs2 as [[o2 H2] Hs2].
  constructor.
  - split; [exact Hn|]. rewrite H1, H2 in *. cbn in Hd. by subst.
  - apply IH; assumption.
Qed.

Lemma scan_raised_related to_ascii_digits archive n pos flag pending index1 index2 :
  raised (outcome (scan to_ascii_digits archive n (mk_state pos flag pending index1)))
  = raised (outcome (scan to_ascii_digits archive n (mk_state pos flag pending index2))).
Proof.
  destruct (scan_index_irrelevant to_ascii_digits archive n pos flag pending index1 index2)
    as (_ & _ & Hs).
  revert Hs.
  generalize (outcome (scan to_ascii_digits archive n (mk_state pos flag pending index1))).
  generalize (outcome (scan to_ascii_digits archive n (mk_state pos flag pending index2))).
  intros c2 c1 Hs. destruct c1, c2; cbn in Hs |- *; congruence.
Qed.

(** [extract] with the loop bound of the scan as a parameter. *)
Lemma extract_with_bound to_ascii_digits archive n index dest fs :
  match extract_loop archive dest
          (events (scan to_ascii_digits archive n (initial_state index))) fs with
  | (fs', None) =>
      (fs', match outcome (scan to_ascii_digits archive n (initial_state index)) with
            | Raised e _ => Some e
            | _ => None
            end)
  | failed => failed
  end
  = match extract_loop archive dest
            (events (scan to_ascii_digits archive n (initial_state ∅))) fs with
    | (fs', None) =>
        (fs', match outcome (scan to_ascii_digits archive n (initial_state ∅)) with
              | Raised e _ => Some e
              | _ => None
              end)
    | failed => failed
    end.
Proof.
  unfold initial_state.
  rewrite (extract_loop_ext archive dest _ _ fs
             (events_related to_ascii_digits archive n 0 false None index ∅)).
  pose proof (scan_raised_related to_ascii_digits archive n 0 false None index ∅) as Hr.
  unfold raised in Hr. by rewrite Hr.
Qed.

(** Extraction does not depend on what the dictionary holds when it starts:
    the destination and the exception are those of an extraction by a parser
    that has not scanned before. *)
Theorem extraction_ignores_the_dictionary
    (to_ascii_digits : string -> list byte) (archive : list byte)
    (index : gmap string Z) (dest : string) (fs : gmap string node) :
  extract to_ascii_digits archive index dest fs
  = extract to_ascii_digits archive ∅ dest fs.
Proof.
  unfold extract, get_names. cbv zeta. apply extract_with_bound.
Qed.

(** * The module-level [read] *)

Lemma pread_blocks archive n :
  concat (map (fun i => pread archive (512 * i) 512) (seq 0 n)) = take (512 * n) archive.
Proof.
  induction n as [|n IH]; [reflexivity|].
  rewrite seq_S, map_app, concat_app, IH. cbn [map concat Nat.add]. rewrite app_nil_r.
  unfold pread. rewrite take_take_drop. f_equal. lia.
Qed.

(** The blocks [0 .. n - 1], when the file system takes their offsets, are
    read without exception and are, joined, the first [512 * n] bytes of
    the file (all of it when it is shorter). *)
Theorem blocks_rebuild_the_file (max_offset : Z) (archive : list byte) (n : nat) :
  max_offset < 2 ^ 63 ->
  512 * Z.of_nat n <= max_offset ->
  exists blocks,
    mapM (fun i => Untar.read max_offset archive (Z.of_nat i)) (seq 0 n) = Ok blocks
    /\ concat blocks = take (512 * n) archive.
Proof.
  intros Hmax Hn. exists (map (fun i => pread archive (512 * i) 512) (seq 0 n)).
  split; [|apply pread_blocks].
  assert (forall i, In i (seq 0 n) -> (i < n)%nat) as Hseq
    by (intros i Hi; apply in_seq in Hi; lia).
  induction (seq 0 n) as [|i l IH]; [reflexivity|].
  cbn [mapM map]. rewrite IH by (intros j Hj; apply Hseq; by right).
  assert (i < n)%nat as Hi by (apply Hseq; by left).
  unfold Untar.read.
  destruct (Z.ltb_spec (512 * Z.of_nat i) (- 2 ^ 63)); [lia|].
  destruct (Z.leb_spec (2 ^ 63) (512 * Z.of_nat i)); [lia|].
  destruct (Z.ltb_spec (512 * Z.of_nat i) 0); [lia|].
  destruct (Z.ltb_spec max_offset (512 * Z.of_nat i)); [lia|].
  cbn [orb bind]. do 3 f_equal. lia.
Qed.

Lemma blocks_rebuild_witness :
  exists blocks,
    mapM (fun i => Untar.read (2 ^ 40) Samples.gnu_archive (Z.of_nat i)) (seq 0 4) = Ok blocks
    /\ concat blocks = take (512 * 4) Samples.gnu_archive.
Proof.
  apply (blocks_rebuild_the_file (2 ^ 40) Samples.gnu_archive 4); [reflexivity|].
  vm_compute. discriminate.
Defined.

(** * Printing *)

Section PrintingProperties.

Variable str_datetime : Z -> string.
Variable str_dict : gmap string Z -> string.

Lemma append_assoc (a b c : string) : ((a ++ b) ++ c = a ++ b ++ c)%string.
Proof.
  induction a as [|x a IH]; [reflexivity|].
  change (String x ((a ++ b) ++ c) = String x (a ++ b ++ c))%string. by rewrite IH.
Qed.

Lemma max_from_labelled acc stat :
  Forall labelled stat ->
  exists width,
    max_from acc stat = inr width
    /\ (acc <= width)%nat
    /\ Forall (fun field => exists label rest,
                 field = VStr label :: rest /\ (str_len label <= width)%nat) stat
    /\ (width = acc \/ Exists (label_is width) stat).
Proof.
  intros H. revert acc. induction H as [|field stat (label & value & rest & ->) _ IH];
    intros acc.
  { exists acc. cbn. repeat split; [lia|constructor|by left]. }
  cbn [max_from label_width len].
  destruct (IH (Nat.max acc (str_len label))) as (width & -> & Hle & Hall & Hmax).
  exists width. repeat split; [lia| |].
  - constructor; [|exact Hall]. exists label, (value :: rest). split; [reflexivity|lia].
  - destruct Hmax as [->|Hex]; [|right; by constructor].
    destruct (Nat.max_spec acc (str_len label)) as [[_ ->]|[_ ->]]; [|by left].
    right. constructor. by exists label, (value :: rest).
Qed.

Lemma print_fields_labelled width stat :
  Forall labelled stat ->
  Forall (fun field => exists label rest,
            field = VStr label :: rest /\ (str_len label <= width)%nat) stat ->
  exists lines,
    print_fields str_datetime str_dict width stat = (lines, None)
    /\ Forall2 (fun field line => exists label value rest pad,
                  field = VStr label :: value :: rest
                  /\ line = (spaces pad ++ label ++ " : " ++ str str_datetime str_dict value)%string
                  /\ (pad + str_len label)%nat = width) stat lines.
Proof.
  intros H. induction H as [|field stat (label & value & rest & ->) _ IH]; intros Hw.
  { exists []. split; [reflexivity|constructor]. }
  apply Forall_cons in Hw as [(label' & rest' & [= <- <-] & Hle) Hw].
  destruct (IH Hw) as (lines & Hlines & Hall).
  cbn [print_fields format_field]. rewrite Hlines.
  eexists. split; [reflexivity|]. constructor; [|exact Hall].
  exists label, value, rest, (width - str_len label)%nat.
  split; [reflexivity|]. split; [|lia].
  unfold rjust. apply append_assoc.
Qed.

(** Every field of a list that is not empty and whose fields are labelled
    is printed, on a line of its own, as its label, [ : ] and its value; the
    labels are padded on the left so that the separators stand in one
    column, that of the longest label, which is not padded. *)
Theorem printed_fields_are_aligned (stat : list (list pyval)) :
  stat <> [] ->
  Forall labelled stat ->
  exists width lines,
    print_file_info str_datetime str_dict stat = (lines, None)
    /\ Forall2 (fun field line => exists label value rest pad,
                  field = VStr label :: value :: rest
                  /\ line = (spaces pad ++ label ++ " : " ++ str str_datetime str_dict value)%string
                  /\ (pad + str_len label)%nat = width) stat lines
    /\ Exists (label_is width) stat.
Proof.
  intros Hne Hstat. destruct stat as [|field stat]; [done|]. clear Hne.
  pose proof Hstat as Hall.
  apply Forall_cons in Hstat as [(label & value & rest & ->) Hstat].
  destruct (max_from_labelled (str_len label) stat Hstat) as (width & Hmax & Hle & Hw & Hex).
  assert (Forall (fun field => exists label rest,
                    field = VStr label :: rest /\ (str_len label <= width)%nat)
            ((VStr label :: value :: rest) :: stat)) as Hw'.
  { constructor; [|exact Hw]. by exists label, (value :: rest). }
  destruct (print_fields_labelled width _ Hall Hw') as (lines & Hlines & Hlayout).
  exists width, lines. unfold print_file_info. cbn [max_width label_width len].
  rewrite Hmax. split; [exact Hlines|]. split; [exact Hlayout|].
  destruct Hex as [->|Hex]; [|by constructor].
  constructor. by exists label, (value :: rest).
Qed.

(** What is printed for the answer of [file_stat]. *)
Lemma print_file_stat archive index filename stat :
  file_stat archive index filename = Ok stat ->
  exists data mode,
    FileHeader.access_mod data = VInt mode
    /\ print_file_info str_datetime str_dict stat
       = ([ "         Filename : " ++ filename;
            "             Type : " ++ str str_datetime str_dict (FileHeader.file_type data);
            "             Mode : " ++ NilZero.string_of_int (Z.to_int mode);
            "              UID : " ++ str str_datetime str_dict (FileHeader.user_id data);
            "              GID : " ++ str str_datetime str_dict (FileHeader.group_id data);
            "             Size : " ++ str str_datetime str_dict (FileHeader.size data);
            "Modification time : " ++ str str_datetime str_dict (FileHeader.last_mod_time data);
            "         Checksum : " ++ str str_datetime str_dict (FileHeader.check_sum data);
            "        User name : " ++ str str_datetime str_dict (FileHeader.user_name data);
            "       Group name : " ++ str str_datetime str_dict (FileHeader.group_name data) ]%string, None).
Proof.
  unfold file_stat. intros H.
  destruct (position_getitem index filename) as [start|e]; [|discriminate].
  cbn [bind] in H.
  destruct (get_file_data archive start filename) as [data|e] eqn:Hdata; [|discriminate].
  cbn [bind] in H. injection H as <-.
  destruct (get_file_data_Ok _ _ _ _ Hdata)
    as (_ & _ & _ & mode & ? & ? & ? & ? & ? & _ & _ & _ & Hname & Hmode & _).
  exists data, mode. split; [exact Hmode|].
  rewrite Hname, Hmode. reflexivity.
Qed.

(** [print_file_info] never fails on what [file_stat] answers: it prints
    ten lines with the separator after column 17, the mode, like the other
    numbers, in base 10, and nothing of the dictionary that [file_stat] puts
    in the first field. *)
Theorem file_stat_is_printed
    (archive : list byte) (index : gmap string Z) (filename : string)
    (stat : list (list pyval)) :
  file_stat archive index filename = Ok stat ->
  exists data mode,
    FileHeader.access_mod data = VInt mode
    /\ print_file_info str_datetime str_dict stat
       = ([ "         Filename : " ++ filename;
            "             Type : " ++ str str_datetime str_dict (FileHeader.file_type data);
            "             Mode : " ++ NilZero.string_of_int (Z.to_int mode);
            "              UID : " ++ str str_datetime str_dict (FileHeader.user_id data);
            "              GID : " ++ str str_datetime str_dict (FileHeader.group_id data);
            "             Size : " ++ str str_datetime str_dict (FileHeader.size data);
            "Modification time : " ++ str str_datetime str_dict (FileHeader.last_mod_time data);
            "         Checksum : " ++ str str_datetime str_dict (FileHeader.check_sum data);
            "        User name : " ++ str str_datetime str_dict (FileHeader.user_name data);
            "       Group name : " ++ str str_datetime str_dict (FileHeader.group_name data) ]%string, None).
Proof. apply print_file_stat. Qed.

End PrintingProperties.

Lemma printed_fields_witness :
  exists width lines,
    print_file_info Samples.no_datetime Samples.no_dict [ [VStr "Type"; VStr "Directory"]; [VStr "UID"; VInt 1000; VNone] ]
    = (lines, None)
    /\ Forall2 (fun field line => exists label value rest pad,
                  field = VStr label :: value :: rest
                  /\ line = (spaces pad ++ label ++ " : " ++ str Samples.no_datetime Samples.no_dict value)%string
                  /\ (pad + str_len label)%nat = width)
         [ [VStr "Type"; VStr "Directory"]; [VStr "UID"; VInt 1000; VNone] ] lines
    /\ Exists (label_is width)
         [ [VStr "Type"; VStr "Directory"]; [VStr "UID"; VInt 1000; VNone] ].
Proof.
  apply (printed_fields_are_aligned Samples.no_datetime Samples.no_dict
           [ [VStr "Type"; VStr "Directory"]; [VStr "UID"; VInt 1000; VNone] ]).
  - discriminate.
  - repeat constructor; by eexists _, _, _.
Defined.


Lemma file_stat_is_printed_witness :
  exists data mode,
    FileHeader.access_mod data = VInt mode
    /\ print_file_info Samples.no_datetime Samples.no_dict
         [ [VStr "Filename"; VStr "data/a.txt"; VDict (Samples.index_of Samples.gnu_archive)];
           [VStr "Type"; VStr "Regular file"];
           [VStr "Mode"; VInt 420];
           [VStr "UID"; VInt 1000];
           [VStr "GID"; VInt 1000];
           [VStr "Size"; VInt 5];
           [VStr "Modification time"; VDatetime 1402433619];
           [VStr "Checksum"; VStr "005492"];
           [VStr "User name"; VStr "victor"];
           [VStr "Group name"; VStr "victor"] ]
       = ([ "         Filename : " ++ "data/a.txt";
            "             Type : " ++ str Samples.no_datetime Samples.no_dict (FileHeader.file_type data);
            "             Mode : " ++ NilZero.string_of_int (Z.to_int mode);
            "              UID : " ++ str Samples.no_datetime Samples.no_dict (FileHeader.user_id data);
            "              GID : " ++ str Samples.no_datetime Samples.no_dict (FileHeader.group_id data);
            "             Size : " ++ str Samples.no_datetime Samples.no_dict (FileHeader.size data);
            "Modification time : " ++ str Samples.no_datetime Samples.no_dict (FileHeader.last_mod_time data);
            "         Checksum : " ++ str Samples.no_datetime Samples.no_dict (FileHeader.check_sum data);
            "        User name : " ++ str Samples.no_datetime Samples.no_dict (FileHeader.user_name data);
            "       Group name : " ++ str Samples.no_datetime Samples.no_dict (FileHeader.group_name data) ]%string, None).
Proof.
  apply (file_stat_is_printed Samples.no_datetime Samples.no_dict Samples.gnu_archive
           (Samples.index_of Samples.gnu_archive) "data/a.txt").
  vm_compute. reflexivity.
Defined.

(** * The program *)

Lemma str_le_total : Total str_le.
Proof. intros a b. apply String.leb_total. Qed.

Lemma sorted_permutation l : sorted l ≡ₚ l.
Proof. apply merge_sort_Permutation. Qed.

Lemma sorted_sorted l : Sorted str_le (sorted l).
Proof. apply (@Sorted_merge_sort _ str_le _ str_le_total). Qed.

Lemma extract_from_any_dictionary to_ascii_digits archive index dest fs :
  extract to_ascii_digits archive index dest fs
  = extract to_ascii_digits archive ∅ dest fs.
Proof.
  unfold extract, get_names. cbv zeta. apply extract_with_bound.
Qed.

Section ProgramProperties.

Variable to_ascii_digits : string -> list byte.
Variable str_datetime : Z -> string.
Variable str_dict : gmap string Z -> string.

(** With [--list] and without [--info], the names of the archive are
    printed in ascending order, each as often as the scan yields it; when
    the scan raises, nothing is printed and nothing is extracted, whatever
    was yielded before. *)
Theorem listing_is_sorted
    (extracting : bool) (archive : list byte) (dest : string) (fs : gmap string node) :
  let r := get_names to_ascii_digits archive ∅ in
  let out :=
    main to_ascii_digits str_datetime str_dict (Args.mk true extracting false)
      archive dest fs in
  match raised (outcome r) with
  | Some e => out = mk_run [] fs (Some (ExitException (Exn e)))
  | None => printed out ≡ₚ names r /\ Sorted str_le (printed out)
  end.
Proof.
  cbv zeta. unfold main. cbn [Args.ls Args.extract Args.info orb negb].
  destruct (outcome (get_names to_ascii_digits archive ∅)) as [st|index|e index];
    cbn [raised]; [| |reflexivity];
    (destruct extracting;
     [destruct (extract to_ascii_digits archive _ dest fs) as [fs' e']|];
     cbn [printed]; (split; [apply sorted_permutation|apply sorted_sorted])).
Qed.

(** When the listing or the information of an archive is printed without
    exception, adding [--extract] prints the same lines and then writes and
    fails as an extraction alone does: the dictionary the listing has filled
    makes no difference. *)
Theorem listing_then_extraction
    (listing informing : bool) (archive : list byte) (dest : string)
    (fs : gmap string node) :
  let main := main to_ascii_digits str_datetime str_dict in
  exited (main (Args.mk listing false informing) archive dest fs) = None ->
  let both := main (Args.mk listing true informing) archive dest fs in
  let alone := extract to_ascii_digits archive ∅ dest fs in
  printed both = printed (main (Args.mk listing false informing) archive dest fs)
  /\ written both = alone.1
  /\ exited both = option_map (fun e => ExitException (Exn e)) alone.2.
Proof.
  cbv zeta. unfold main. cbn [Args.ls Args.extract Args.info].
  destruct informing, listing; cbn [orb negb];
    [| | |cbn [exited]; intros H; discriminate H];
    rewrite extract_from_any_dictionary;
    destruct (extract to_ascii_digits archive ∅ dest fs) as [fs' e'];
    (destruct (outcome (get_names to_ascii_digits archive ∅)) as [st|index|e index];
     [| |cbn [exited]; intros H; discriminate H]);
    cbn [final_index];
    try (destruct (info_loop _ _ _ _ _) as [lines [e|]];
         [cbn [exited]; intros H; discriminate H|]);
    intros _; cbn [printed written exited fst snd]; repeat split; reflexivity.
Qed.

Lemma info_loop_blocks archive index fns :
  exists k,
    length (info_loop str_datetime str_dict archive index fns).1 = (11 * k)%nat
    /\ (k <= length fns)%nat
    /\ ((info_loop str_datetime str_dict archive index fns).2 = None -> k = length fns).
Proof.
  induction fns as [|fn fns (k & Hlen & Hk & Hall)].
  { exists O. by cbn. }
  cbn [info_loop].
  destruct (file_stat archive index fn) as [stat|e] eqn:Hstat.
  2:{ exists O. cbn. repeat split; [lia|discriminate]. }
  destruct (print_file_stat str_datetime str_dict _ _ _ _ Hstat) as (data & mode & _ & ->).
  destruct (info_loop str_datetime str_dict archive index fns) as [rest e].
  cbn [fst snd] in *. exists (S k). rewrite length_app. cbn [length].
  repeat split; [lia|lia|]. intros He. by rewrite Hall.
Qed.

(** With [--info] whole blocks are printed, the ten lines of a name and an
    empty line, for names in ascending order, until a header cannot be
    decoded: never part of a block, and a block for every name yielded when
    the program ends without exception. *)
Theorem info_prints_whole_blocks
    (listing extracting : bool) (archive : list byte) (dest : string)
    (fs : gmap string node) :
  let out :=
    main to_ascii_digits str_datetime str_dict (Args.mk listing extracting true)
      archive dest fs in
  exists k,
    length (printed out) = (11 * k)%nat
    /\ (k <= length (names (get_names to_ascii_digits archive ∅)))%nat
    /\ (exited out = None -> k = length (names (get_names to_ascii_digits archive ∅))).
Proof.
  cbv zeta. unfold main. cbn [Args.ls Args.extract Args.info].
  rewrite !orb_true_r. cbn [negb orb].
  assert (forall index,
            exists k,
              length (info_loop str_datetime str_dict archive index
                        (sorted (names (get_names to_ascii_digits archive ∅)))).1
              = (11 * k)%nat
              /\ (k <= length (names (get_names to_ascii_digits archive ∅)))%nat
              /\ ((info_loop str_datetime str_dict archive index
                     (sorted (names (get_names to_ascii_digits archive ∅)))).2 = None ->
                  k = length (names (get_names to_ascii_digits archive ∅)))) as Hloop.
  { intros index.
    destruct (info_loop_blocks archive index
                (sorted (names (get_names to_ascii_digits archive ∅))))
      as (k & Hlen & Hk & Hall).
    rewrite (Permutation_length (sorted_permutation _)) in Hk, Hall. by exists k. }
  destruct (outcome (get_names to_ascii_digits archive ∅)) as [st|index|e index].
  3:{ exists O. cbn [printed exited length]. repeat split; [lia|intros H; discriminate H]. }
  all: cbn [final_index];
    match goal with
    | |- context [info_loop _ _ _ ?i _] => destruct (Hloop i) as (k & Hlen & Hk & Hall)
    end;
    destruct (info_loop _ _ _ _ _) as [lines [e|]]; cbn [fst snd] in *;
    [exists k; cbn [printed exited];
     repeat split; [exact Hlen|exact Hk|intros H; discriminate H]|];
    (destruct extracting;
     [destruct (extract to_ascii_digits archive _ dest fs) as [fs' e']|]);
    exists k; cbn [printed exited];
    (repeat split; [exact Hlen|exact Hk|intros _; by apply Hall]).
Qed.

End ProgramProperties.

Lemma listing_then_extraction_witness :
  let main := main Samples.no_unicode Samples.no_datetime Samples.no_dict in
  let both := main (Args.mk true true true) Samples.gnu_archive "out" ∅ in
  let alone := extract Samples.no_unicode Samples.gnu_archive ∅ "out" ∅ in
  printed both = printed (main (Args.mk true false true) Samples.gnu_archive "out" ∅)
  /\ written both = alone.1
  /\ exited both = option_map (fun e => ExitException (Exn e)) alone.2.
Proof.
  apply (listing_then_extraction Samples.no_unicode Samples.no_datetime Samples.no_dict
           true true Samples.gnu_archive "out" ∅).
  vm_compute. reflexivity.
Defined.
